(** * The authentication adapter of discord-clone over its relational schema

    A shallow embedding of [src/server/auth.ts] ([mySqlDrizzleAdapter]) and of
    the four tables of [src/server/db/schema.ts] it talks to.

    - A table is the list of its rows and [select] yields the matching rows
      in the order of that list, so that [res[0]] is the first of them. The
      source's selects have no [ORDER BY]: which of several matching rows the
      engine yields first is its own business, and the theorems that pick one
      row out of a selection do so under the primary key, where one row
      matches.
    - A statement is a function from the world to an outcome and a new world;
      an [async] method is the sequence of its awaited statements, and a
      rejected promise is the outcome [Throws].
    - The engine enforces the primary keys the schema declares: an [insert]
      whose key is already taken is rejected with a duplicate-entry error.
    - The engine enforces the foreign keys the schema declares, which all
      point at [users.id]: from [sessions.userId], [accounts.userId] and
      [posts.createdById]. A row that names no stored user is not inserted,
      a [userId] is not changed to one, and a user that a row names is not
      deleted. The store itself may hold a row whose user is missing, which
      the left join of [getUserByAccount] reckons with.
    - Column values are compared with Leibniz equality and stored as given. *)

From Stdlib Require Import ZArith String.
From stdpp Require Import base decidable option list strings.

Local Open Scope string_scope.
Local Open Scope list_scope.

(** ** JavaScript values that may be missing *)

Inductive js (A : Type) : Type :=
  | undefined : js A
  | null : js A
  | val (a : A) : js A.
Arguments undefined {A}.
Arguments null {A}.
Arguments val {A} a.

Module Js.

(** [x ?? d] *)
Definition nullish {A} (x d : js A) : js A :=
  match x with
  | undefined | null => d
  | val _ => x
  end.

(** [res[0]] on an array *)
Definition first {A} (res : list A) : js A :=
  match res !! 0%nat with
  | Some r => val r
  | None => undefined
  end.

(** A string property that passes [if (!x) throw]: neither missing nor
    empty. *)
Definition truthy (x : js string) : option string :=
  match x with
  | undefined | null => None
  | val s => if decide (s = "") then None else Some s
  end.

(** [!x] on a string *)
Definition not_string (x : js string) : bool :=
  bool_decide (truthy x = None).

(** A nullable column receiving an optional property: [undefined] falls back
    on the column default, which is NULL when the schema gives none. *)
Definition column {A} (x : js A) : option A :=
  match x with
  | undefined | null => None
  | val a => Some a
  end.

(** [update ... set] skips a property that is [undefined]. *)
Definition set_nullable {A} (x : js A) (old : option A) : option A :=
  match x with
  | undefined => old
  | null => None
  | val a => Some a
  end.

Definition set_required {A} (x : option A) (old : A) : A :=
  match x with
  | None => old
  | Some a => a
  end.

End Js.

(** ** Rows of the schema *)

Module User.
Record t : Type := Row {
  id : string;
  name : option string;
  email : string;
  emailVerified : option Z;
  image : option string }.
Global Instance eq_dec : EqDecision t.
Proof. solve_decision. Defined.
End User.

Module Account.
Record t : Type := Row {
  userId : string;
  type : string;
  provider : string;
  providerAccountId : string;
  refresh_token : option string;
  access_token : option string;
  expires_at : option Z;
  token_type : option string;
  scope : option string;
  id_token : option string;
  session_state : option string }.
Global Instance eq_dec : EqDecision t.
Proof. solve_decision. Defined.
End Account.

Module Session.
Record t : Type := Row {
  sessionToken : string;
  userId : string;
  expires : Z }.
Global Instance eq_dec : EqDecision t.
Proof. solve_decision. Defined.
End Session.

Module VerificationToken.
Record t : Type := Row {
  identifier : string;
  token : string;
  expires : Z }.
Global Instance eq_dec : EqDecision t.
Proof. solve_decision. Defined.
End VerificationToken.

(** The adapter leaves the posts alone; they count because [createdById]
    references [users.id]. *)
Module Post.
Record t : Type := Row {
  id : Z;
  name : option string;
  createdById : string;
  createdAt : Z;
  updatedAt : option Z }.
Global Instance eq_dec : EqDecision t.
Proof. solve_decision. Defined.
End Post.

(** ** The store and the world around it *)

Record Store : Type := MkStore {
  users_rows : list User.t;
  accounts_rows : list Account.t;
  sessions_rows : list Session.t;
  verificationTokens_rows : list VerificationToken.t;
  posts_rows : list Post.t }.

(** [cuid] is what [createId] of [@paralleldrive/cuid2] hands out at each of
    its calls, [cuid_calls] counts the calls made so far. *)
Record World : Type := MkWorld {
  db : Store;
  cuid : nat → string;
  cuid_calls : nat }.

Definition with_db (s : Store) (w : World) : World :=
  {| db := s; cuid := cuid w; cuid_calls := cuid_calls w |}.

(** ** Outcomes *)

Inductive exn : Type :=
  | Error (message : string)
  | ER_DUP_ENTRY (table : string)
  | ER_NO_REFERENCED_ROW_2 (table : string)
  | ER_ROW_IS_REFERENCED_2 (table : string).

Inductive outcome (A : Type) : Type :=
  | Returns (a : A)
  | Throws (e : exn).
Arguments Returns {A} a.
Arguments Throws {A} e.

Definition Async (A : Type) : Type := World → outcome A * World.

Definition ret {A} (a : A) : Async A := λ w, (Returns a, w).

Definition throw {A} (e : exn) : Async A := λ w, (Throws e, w).

Definition bind {A B} (m : Async A) (k : A → Async B) : Async B :=
  λ w, match m w with
       | (Returns a, w') => k a w'
       | (Throws e, w') => (Throws e, w')
       end.

Definition try_catch {A} (body : Async A) (handler : exn → Async A) : Async A :=
  λ w, match body w with
       | (Returns a, w') => (Returns a, w')
       | (Throws e, w') => handler e w'
       end.

Definition then_ {A B} (m : Async A) (f : A → B) : Async B :=
  bind m (λ a, ret (f a)).

Global Instance Async_bind : MBind Async := λ A B k m, bind m k.
Global Instance Async_ret : MRet Async := λ A a, ret a.

Definition createId : Async string :=
  λ w, (Returns (cuid w (cuid_calls w)),
        {| db := db w; cuid := cuid w; cuid_calls := S (cuid_calls w) |}).

(** ** Tables ([dbSchema]) *)

(** [foreign_key] is the user id a row references, if its table has a
    [.references(() => users.id)] column; [referenced] tells whether a row of
    another table references the row. *)
Record table (R : Type) : Type := Table {
  tableName : string;
  key : Type;
  key_eq_dec : EqDecision key;
  primaryKey : R → key;
  rows : Store → list R;
  set_rows : list R → Store → Store;
  foreign_key : R → option string;
  referenced : Store → R → bool }.
Arguments Table {R} tableName key {key_eq_dec} primaryKey rows set_rows
  foreign_key referenced.
Arguments tableName {R} t.
Arguments key {R} t.
Arguments key_eq_dec {R} t.
Arguments primaryKey {R} t r.
Arguments rows {R} t s.
Arguments set_rows {R} t l s.
Arguments foreign_key {R} t r.
Arguments referenced {R} t s r.
Global Existing Instance key_eq_dec.

Module dbSchema.

(** [mysqlTableCreator((name) => `discord-clone_${name}`)] *)
Definition createTable (name : string) : string :=
  String.append "discord-clone_" name.

Definition users : table User.t :=
  Table (createTable "user") string User.id users_rows
    (λ l s, {| users_rows := l; accounts_rows := accounts_rows s;
               sessions_rows := sessions_rows s;
               verificationTokens_rows := verificationTokens_rows s;
               posts_rows := posts_rows s |})
    (λ _, None)
    (λ s u, bool_decide
              (User.id u ∈ (Session.userId <$> sessions_rows s)
                           ++ (Account.userId <$> accounts_rows s)
                           ++ (Post.createdById <$> posts_rows s))).

Definition accounts : table Account.t :=
  Table (createTable "account") (string * string)
    (λ a, (Account.provider a, Account.providerAccountId a)) accounts_rows
    (λ l s, {| users_rows := users_rows s; accounts_rows := l;
               sessions_rows := sessions_rows s;
               verificationTokens_rows := verificationTokens_rows s;
               posts_rows := posts_rows s |})
    (λ a, Some (Account.userId a))
    (λ _ _, false).

Definition sessions : table Session.t :=
  Table (createTable "session") string Session.sessionToken sessions_rows
    (λ l s, {| users_rows := users_rows s; accounts_rows := accounts_rows s;
               sessions_rows := l;
               verificationTokens_rows := verificationTokens_rows s;
               posts_rows := posts_rows s |})
    (λ x, Some (Session.userId x))
    (λ _ _, false).

Definition verificationTokens : table VerificationToken.t :=
  Table (createTable "verificationToken") (string * string)
    (λ v, (VerificationToken.identifier v, VerificationToken.token v))
    verificationTokens_rows
    (λ l s, {| users_rows := users_rows s; accounts_rows := accounts_rows s;
               sessions_rows := sessions_rows s;
               verificationTokens_rows := l;
               posts_rows := posts_rows s |})
    (λ _, None)
    (λ _ _, false).

End dbSchema.

(** ** The foreign keys of the schema

    [sessions.userId], [accounts.userId] and [posts.createdById] are declared
    with [.references(() => users.id)]. *)

(** [id] is the id of a stored user. *)
Definition names_user (id : string) (s : Store) : Prop :=
  id ∈ User.id <$> users_rows s.

Global Instance names_user_dec (id : string) (s : Store) :
  Decision (names_user id s).
Proof. unfold names_user. apply _. Defined.

(** The user a foreign key names, if it names one, is stored. *)
Definition parent_stored (fk : option string) (s : Store) : Prop :=
  match fk with
  | None => True
  | Some id => names_user id s
  end.

Global Instance parent_stored_dec (fk : option string) (s : Store) :
  Decision (parent_stored fk s).
Proof. destruct fk; cbn; apply _. Defined.

(** ** The query builder ([drizzle-orm]) *)

Module Drizzle.

(** [eq(column, value)] and [and(p, q)] *)
Definition eq {R C} (column : R → C) (value : C) : R → Prop :=
  λ r, column r = value.
Definition and {R} (p q : R → Prop) : R → Prop :=
  λ r, p r ∧ q r.

Global Instance eq_dec {R C} `{EqDecision C} (column : R → C) (value : C) :
  ∀ r, Decision (eq column value r).
Proof. intros r. unfold eq. apply _. Defined.
Global Instance and_dec {R} (p q : R → Prop)
  `{∀ r, Decision (p r)} `{∀ r, Decision (q r)} :
  ∀ r, Decision (and p q r).
Proof. intros r. unfold and. apply _. Defined.

(** A query under construction: the rows it will yield on a store. *)
Definition query (A : Type) : Type := Store → list A.

Definition from {R} (t : table R) : query R := rows t.

Definition where_ {A} (p : A → Prop) `{∀ a, Decision (p a)}
    (q : query A) : query A :=
  λ s, filter p (q s).

(** The adapter's [where] clauses only look at the columns of the [from]
    table, so that filtering before the join, in the order of the builder
    calls, yields the rows of the SQL statement. *)
Definition innerJoin {A B} (t : table B) (on : A → B → Prop)
    `{∀ a b, Decision (on a b)} (q : query A) : query (A * B) :=
  λ s, a ← q s; (λ b, (a, b)) <$> filter (on a) (rows t s).

Definition leftJoin {A B} (t : table B) (on : A → B → Prop)
    `{∀ a b, Decision (on a b)} (q : query A) : query (A * js B) :=
  λ s, a ← q s;
       match filter (on a) (rows t s) with
       | [] => [(a, null)]
       | bs => (λ b, (a, val b)) <$> bs
       end.

(** An update that would leave a selected row with a changed foreign key
    that names no stored user. *)
Definition dangles {R} (t : table R) (set : R → R)
    (p : R → Prop) `{∀ r, Decision (p r)} (s : Store) : Prop :=
  Exists (λ r, p r ∧ foreign_key t (set r) ≠ foreign_key t r
               ∧ ¬ parent_stored (foreign_key t (set r)) s) (rows t s).

(** A delete that would remove a row that another table references. *)
Definition restricts {R} (t : table R)
    (p : R → Prop) `{∀ r, Decision (p r)} (s : Store) : Prop :=
  Exists (λ r, p r ∧ referenced t s r = true) (rows t s).

(** The statements of the client ([db]). A statement the engine rejects
    throws and writes nothing. *)
Definition select {A} (q : query A) : Async (list A) :=
  λ w, (Returns (q (db w)), w).

Definition insert_values {R} (t : table R) (r : R) : Async () :=
  λ w, if decide (primaryKey t r ∈ primaryKey t <$> rows t (db w))
       then (Throws (ER_DUP_ENTRY (tableName t)), w)
       else if decide (parent_stored (foreign_key t r) (db w))
       then (Returns (),
             with_db (set_rows t (rows t (db w) ++ [r]) (db w)) w)
       else (Throws (ER_NO_REFERENCED_ROW_2 (tableName t)), w).

(** The adapter's updates write into the key column the value their [where]
    selected on: no key changes, and what the engine does on a changed key
    is left out. *)
Definition update_set_where {R} (t : table R) (set : R → R)
    (p : R → Prop) `{∀ r, Decision (p r)} : Async () :=
  λ w, if decide (dangles t set p (db w))
       then (Throws (ER_NO_REFERENCED_ROW_2 (tableName t)), w)
       else (Returns (),
             with_db (set_rows t ((λ r, if decide (p r) then set r else r)
                                    <$> rows t (db w)) (db w)) w).

Definition delete_where {R} (t : table R)
    (p : R → Prop) `{∀ r, Decision (p r)} : Async () :=
  λ w, if decide (restricts t p (db w))
       then (Throws (ER_ROW_IS_REFERENCED_2 (tableName t)), w)
       else (Returns (),
             with_db (set_rows t (filter (λ r, ¬ p r) (rows t (db w)))
                        (db w)) w).

End Drizzle.

(** ** What the adapter's methods receive and return *)

(** [Omit<AdapterUser, "id">]; an object of that type may still carry an [id]
    property at run time. *)
Module NewUser.
Record t : Type := Obj {
  id : js string;
  name : js string;
  email : string;
  emailVerified : option Z;
  image : js string }.
End NewUser.

(** The object [{ ...data, id }] that [createUser] hands to [values]. *)
Module UserValues.
Record t : Type := Obj {
  id : string;
  name : js string;
  email : string;
  emailVerified : option Z;
  image : js string }.

(** [{ ...data, id }]: the property written last wins. *)
Definition spread (data : NewUser.t) (new_id : string) : t :=
  {| id := new_id; name := NewUser.name data; email := NewUser.email data;
     emailVerified := NewUser.emailVerified data;
     image := NewUser.image data |}.

(** The row [.values(obj)] sends to [users]. *)
Definition row (obj : t) : User.t :=
  {| User.id := id obj;
     User.name := Js.column (name obj);
     User.email := email obj;
     User.emailVerified := emailVerified obj;
     User.image := Js.column (image obj) |}.
End UserValues.

(** [Partial<AdapterUser> & Pick<AdapterUser, "id">] *)
Module PartialUser.
Record t : Type := Obj {
  id : js string;
  name : js string;
  email : option string;
  emailVerified : js Z;
  image : js string }.

(** [.set(data)] on [users] *)
Definition set (data : t) (r : User.t) : User.t :=
  {| User.id := match id data with val i => i | _ => User.id r end;
     User.name := Js.set_nullable (name data) (User.name r);
     User.email := Js.set_required (email data) (User.email r);
     User.emailVerified :=
       Js.set_nullable (emailVerified data) (User.emailVerified r);
     User.image := Js.set_nullable (image data) (User.image r) |}.
End PartialUser.

(** [Partial<AdapterSession> & Pick<AdapterSession, "sessionToken">] *)
Module PartialSession.
Record t : Type := Obj {
  sessionToken : string;
  userId : option string;
  expires : option Z }.

(** [.set(data)] on [sessions] *)
Definition set (data : t) (r : Session.t) : Session.t :=
  {| Session.sessionToken := sessionToken data;
     Session.userId := Js.set_required (userId data) (Session.userId r);
     Session.expires := Js.set_required (expires data) (Session.expires r) |}.
End PartialSession.

(** [Pick<AdapterAccount, "provider" | "providerAccountId">] *)
Module AccountRef.
Record t : Type := Obj {
  provider : string;
  providerAccountId : string }.
End AccountRef.

(** [{ identifier: string; token: string }] *)
Module TokenRef.
Record t : Type := Obj {
  identifier : string;
  token : string }.
End TokenRef.

Module SessionAndUser.
Record t : Type := Obj {
  session : Session.t;
  user : User.t }.
End SessionAndUser.

Module AccountAndUser.
Record t : Type := Obj {
  account : Account.t;
  user : js User.t }.
End AccountAndUser.

(** ** The adapter ([mySqlDrizzleAdapter]) *)

Module Adapter.
Import dbSchema.

Definition createUser (data : NewUser.t) : Async (js User.t) :=
  id ← createId;
  Drizzle.insert_values users (UserValues.row (UserValues.spread data id));;
  then_ (Drizzle.select
           (Drizzle.where_ (Drizzle.eq User.id id) (Drizzle.from users)))
        Js.first.

Definition getUser (data : string) : Async (js User.t) :=
  thing ← then_ (Drizzle.select
                   (Drizzle.where_ (Drizzle.eq User.id data)
                      (Drizzle.from users)))
                Js.first;
  mret (Js.nullish thing null).

Definition getUserByEmail (data : string) : Async (js User.t) :=
  user ← then_ (Drizzle.select
                  (Drizzle.where_ (Drizzle.eq User.email data)
                     (Drizzle.from users)))
               Js.first;
  mret (Js.nullish user null).

Definition createSession (data : Session.t) : Async (js Session.t) :=
  Drizzle.insert_values sessions data;;
  then_ (Drizzle.select
           (Drizzle.where_
              (Drizzle.eq Session.sessionToken (Session.sessionToken data))
              (Drizzle.from sessions)))
        Js.first.

Definition getSessionAndUser (data : string) : Async (js SessionAndUser.t) :=
  sessionAndUser ←
    then_ (Drizzle.select
             (Drizzle.innerJoin users
                (λ s u, User.id u = Session.userId s)
                (Drizzle.where_ (Drizzle.eq Session.sessionToken data)
                   (Drizzle.from sessions))))
          (λ res, Js.first
                    ((λ su, SessionAndUser.Obj su.1 su.2) <$> res));
  mret (Js.nullish sessionAndUser null).

Definition updateUser (data : PartialUser.t) : Async (js User.t) :=
  match Js.truthy (PartialUser.id data) with
  | None => throw (Error "No user id.")
  | Some id =>
      Drizzle.update_set_where users (PartialUser.set data)
        (Drizzle.eq User.id id);;
      then_ (Drizzle.select
               (Drizzle.where_ (Drizzle.eq User.id id) (Drizzle.from users)))
            Js.first
  end.

Definition updateSession (data : PartialSession.t) : Async (js Session.t) :=
  Drizzle.update_set_where sessions (PartialSession.set data)
    (Drizzle.eq Session.sessionToken (PartialSession.sessionToken data));;
  then_ (Drizzle.select
           (Drizzle.where_
              (Drizzle.eq Session.sessionToken
                 (PartialSession.sessionToken data))
              (Drizzle.from sessions)))
        Js.first.

Definition linkAccount (rawAccount : Account.t) : Async () :=
  Drizzle.insert_values accounts rawAccount.

Definition getUserByAccount (account : AccountRef.t) : Async (js User.t) :=
  dbAccount ←
    then_ (Drizzle.select
             (Drizzle.leftJoin users
                (λ a u, Account.userId a = User.id u)
                (Drizzle.where_
                   (Drizzle.and
                      (Drizzle.eq Account.providerAccountId
                         (AccountRef.providerAccountId account))
                      (Drizzle.eq Account.provider
                         (AccountRef.provider account)))
                   (Drizzle.from accounts))))
          (λ res, Js.first
                    ((λ au, AccountAndUser.Obj au.1 au.2) <$> res));
  match Js.nullish dbAccount null with
  | undefined | null => mret null
  | val dbAccount => mret (AccountAndUser.user dbAccount)
  end.

Definition deleteSession (sessionToken : string) : Async (js Session.t) :=
  session ← then_ (Drizzle.select
                     (Drizzle.where_
                        (Drizzle.eq Session.sessionToken sessionToken)
                        (Drizzle.from sessions)))
                  Js.first;
  Drizzle.delete_where sessions
    (Drizzle.eq Session.sessionToken sessionToken);;
  mret (Js.nullish session null).

Definition createVerificationToken (token : VerificationToken.t)
    : Async (js VerificationToken.t) :=
  Drizzle.insert_values verificationTokens token;;
  then_ (Drizzle.select
           (Drizzle.where_
              (Drizzle.eq VerificationToken.identifier
                 (VerificationToken.identifier token))
              (Drizzle.from verificationTokens)))
        Js.first.

Definition useVerificationToken (token : TokenRef.t)
    : Async (js VerificationToken.t) :=
  try_catch
    (deletedToken ←
       then_ (Drizzle.select
                (Drizzle.where_
                   (Drizzle.and
                      (Drizzle.eq VerificationToken.identifier
                         (TokenRef.identifier token))
                      (Drizzle.eq VerificationToken.token
                         (TokenRef.token token)))
                   (Drizzle.from verificationTokens)))
             Js.first;
     Drizzle.delete_where verificationTokens
       (Drizzle.and
          (Drizzle.eq VerificationToken.identifier
             (TokenRef.identifier token))
          (Drizzle.eq VerificationToken.token (TokenRef.token token)));;
     mret (Js.nullish deletedToken null))
    (λ err, throw (Error "No verification token found.")).

Definition deleteUser (id : string) : Async (js User.t) :=
  user ← then_ (Drizzle.select
                  (Drizzle.where_ (Drizzle.eq User.id id)
                     (Drizzle.from users)))
               (λ res, Js.nullish (Js.first res) null);
  Drizzle.delete_where users (Drizzle.eq User.id id);;
  mret user.

Definition unlinkAccount (account : AccountRef.t) : Async (js ()) :=
  Drizzle.delete_where accounts
    (Drizzle.and
       (Drizzle.eq Account.providerAccountId
          (AccountRef.providerAccountId account))
       (Drizzle.eq Account.provider (AccountRef.provider account)));;
  mret undefined.

End Adapter.

(** ** A small store to run the adapter on *)

Module Sample.

Definition alice : User.t :=
  {| User.id := "u1"; User.name := Some "Alice";
     User.email := "alice@example.org"; User.emailVerified := None;
     User.image := None |}.

Definition alice_github : Account.t :=
  {| Account.userId := "u1"; Account.type := "oauth";
     Account.provider := "github"; Account.providerAccountId := "4711";
     Account.refresh_token := None; Account.access_token := Some "gho";
     Account.expires_at := None; Account.token_type := Some "bearer";
     Account.scope := None; Account.id_token := None;
     Account.session_state := None |}.

(** An account whose user row is gone. *)
Definition orphan_github : Account.t :=
  {| Account.userId := "u9"; Account.type := "oauth";
     Account.provider := "github"; Account.providerAccountId := "4712";
     Account.refresh_token := None; Account.access_token := None;
     Account.expires_at := None; Account.token_type := None;
     Account.scope := None; Account.id_token := None;
     Account.session_state := None |}.

Definition alice_session : Session.t :=
  {| Session.sessionToken := "s1"; Session.userId := "u1";
     Session.expires := 1000 |}.

Definition magic_link : VerificationToken.t :=
  {| VerificationToken.identifier := "alice@example.org";
     VerificationToken.token := "t1"; VerificationToken.expires := 2000 |}.

Definition second_link : VerificationToken.t :=
  {| VerificationToken.identifier := "alice@example.org";
     VerificationToken.token := "t2"; VerificationToken.expires := 3000 |}.

Definition store : Store :=
  {| users_rows := [alice];
     accounts_rows := [alice_github; orphan_github];
     sessions_rows := [alice_session];
     verificationTokens_rows := [magic_link];
     posts_rows := [] |}.

Definition ids (n : nat) : string :=
  match n with
  | O => "c0"
  | 1%nat => "c1"
  | _ => "c2"
  end.

Definition world : World :=
  {| db := store; cuid := ids; cuid_calls := 0 |}.

End Sample.

(** ** Worlds that differ in one table *)

Definition with_users (l : list User.t) (w : World) : World :=
  {| db := {| users_rows := l;
              accounts_rows := accounts_rows (db w);
              sessions_rows := sessions_rows (db w);
              verificationTokens_rows := verificationTokens_rows (db w);
              posts_rows := posts_rows (db w) |};
     cuid := cuid w; cuid_calls := cuid_calls w |}.

Definition with_sessions (l : list Session.t) (w : World) : World :=
  {| db := {| users_rows := users_rows (db w);
              accounts_rows := accounts_rows (db w);
              sessions_rows := l;
              verificationTokens_rows := verificationTokens_rows (db w);
              posts_rows := posts_rows (db w) |};
     cuid := cuid w; cuid_calls := cuid_calls w |}.

Definition with_verificationTokens (l : list VerificationToken.t) (w : World)
    : World :=
  {| db := {| users_rows := users_rows (db w);
              accounts_rows := accounts_rows (db w);
              sessions_rows := sessions_rows (db w);
              verificationTokens_rows := l;
              posts_rows := posts_rows (db w) |};
     cuid := cuid w; cuid_calls := cuid_calls w |}.

(** ** The id generator seen from outside *)

(** The id the next call of [createId] returns, and the world after it. *)
Definition next_id (w : World) : string := cuid w (cuid_calls w).

Definition after_createId (w : World) : World :=
  {| db := db w; cuid := cuid w; cuid_calls := S (cuid_calls w) |}.

(** The user row that [createUser] is to store for [data] under [id]. *)
Definition new_user_row (data : NewUser.t) (id : string) : User.t :=
  {| User.id := id;
     User.name := Js.column (NewUser.name data);
     User.email := NewUser.email data;
     User.emailVerified := NewUser.emailVerified data;
     User.image := Js.column (NewUser.image data) |}.

(** [data] with its [id] property set to [supplied]. *)
Definition carrying_id (supplied : js string) (data : NewUser.t) : NewUser.t :=
  {| NewUser.id := supplied; NewUser.name := NewUser.name data;
     NewUser.email := NewUser.email data;
     NewUser.emailVerified := NewUser.emailVerified data;
     NewUser.image := NewUser.image data |}.

(** ** Primary keys *)

(** The rows of a table carry pairwise different primary keys. *)
Definition pk_ok {R} (t : table R) (s : Store) : Prop :=
  NoDup (primaryKey t <$> rows t s).

Global Instance pk_ok_dec {R} (t : table R) (s : Store) : Decision (pk_ok t s).
Proof. unfold pk_ok. apply _. Defined.

(** ** The conditions of the adapter's selections *)

(** The [where] clause of [useVerificationToken]. *)
Definition token_matches (token : TokenRef.t) : VerificationToken.t → Prop :=
  Drizzle.and
    (Drizzle.eq VerificationToken.identifier (TokenRef.identifier token))
    (Drizzle.eq VerificationToken.token (TokenRef.token token)).

(** The identifier and token of a stored row, as a caller passes them. *)
Definition ref_of (r : VerificationToken.t) : TokenRef.t :=
  {| TokenRef.identifier := VerificationToken.identifier r;
     TokenRef.token := VerificationToken.token r |}.

(** The [where] clause of [getUserByAccount]. *)
Definition account_matches (account : AccountRef.t) : Account.t → Prop :=
  Drizzle.and
    (Drizzle.eq Account.providerAccountId
       (AccountRef.providerAccountId account))
    (Drizzle.eq Account.provider (AccountRef.provider account)).

(** The rows the left join of [getUserByAccount] yields for one account. *)
Definition left_rows (users : list User.t) (a : Account.t)
    : list (Account.t * js User.t) :=
  match filter (λ u, Account.userId a = User.id u) users with
  | [] => [(a, null)]
  | bs => (λ b, (a, val b)) <$> bs
  end.

(** ** Sequences of adapter calls *)

Definition with_accounts (l : list Account.t) (w : World) : World :=
  {| db := {| users_rows := users_rows (db w);
              accounts_rows := l;
              sessions_rows := sessions_rows (db w);
              verificationTokens_rows := verificationTokens_rows (db w);
              posts_rows := posts_rows (db w) |};
     cuid := cuid w; cuid_calls := cuid_calls w |}.

(** Every table of the store has pairwise different primary keys. *)
Definition store_ok (s : Store) : Prop :=
  pk_ok dbSchema.users s ∧ pk_ok dbSchema.accounts s
  ∧ pk_ok dbSchema.sessions s ∧ pk_ok dbSchema.verificationTokens s.

Global Instance store_ok_dec (s : Store) : Decision (store_ok s).
Proof. unfold store_ok. apply _. Defined.

(** One call of a method of the adapter, with its argument. *)
Inductive call : Type :=
  | CreateUser (data : NewUser.t)
  | GetUser (id : string)
  | GetUserByEmail (email : string)
  | CreateSession (data : Session.t)
  | GetSessionAndUser (sessionToken : string)
  | UpdateUser (data : PartialUser.t)
  | UpdateSession (data : PartialSession.t)
  | LinkAccount (rawAccount : Account.t)
  | GetUserByAccount (account : AccountRef.t)
  | DeleteSession (sessionToken : string)
  | CreateVerificationToken (token : VerificationToken.t)
  | UseVerificationToken (token : TokenRef.t)
  | DeleteUser (id : string)
  | UnlinkAccount (account : AccountRef.t).

(** The world a call leaves behind, whether it returns or throws. *)
Definition after (c : call) (w : World) : World :=
  match c with
  | CreateUser data => (Adapter.createUser data w).2
  | GetUser id => (Adapter.getUser id w).2
  | GetUserByEmail email => (Adapter.getUserByEmail email w).2
  | CreateSession data => (Adapter.createSession data w).2
  | GetSessionAndUser sessionToken =>
      (Adapter.getSessionAndUser sessionToken w).2
  | UpdateUser data => (Adapter.updateUser data w).2
  | UpdateSession data => (Adapter.updateSession data w).2
  | LinkAccount rawAccount => (Adapter.linkAccount rawAccount w).2
  | GetUserByAccount account => (Adapter.getUserByAccount account w).2
  | DeleteSession sessionToken => (Adapter.deleteSession sessionToken w).2
  | CreateVerificationToken token =>
      (Adapter.createVerificationToken token w).2
  | UseVerificationToken token => (Adapter.useVerificationToken token w).2
  | DeleteUser id => (Adapter.deleteUser id w).2
  | UnlinkAccount account => (Adapter.unlinkAccount account w).2
  end.

Definition after_all (cs : list call) (w : World) : World :=
  foldl (λ w c, after c w) w cs.

(** The account reference a caller passes for a stored account. *)
Definition account_ref_of (a : Account.t) : AccountRef.t :=
  {| AccountRef.provider := Account.provider a;
     AccountRef.providerAccountId := Account.providerAccountId a |}.

(** An update that carries nothing but the id. *)
Definition only_id (id : string) : PartialUser.t :=
  {| PartialUser.id := val id; PartialUser.name := undefined;
     PartialUser.email := None; PartialUser.emailVerified := undefined;
     PartialUser.image := undefined |}.

(** ** Users that nothing references *)

(** No session, no account and no post belongs to the user [id]. *)
Definition unreferenced (id : string) (s : Store) : Prop :=
  Forall (λ x, Session.userId x ≠ id) (sessions_rows s)
  ∧ Forall (λ a, Account.userId a ≠ id) (accounts_rows s)
  ∧ Forall (λ x, Post.createdById x ≠ id) (posts_rows s).

Global Instance unreferenced_dec (id : string) (s : Store) :
  Decision (unreferenced id s).
Proof. unfold unreferenced. apply _. Defined.

(** ** More rows to run the adapter on *)

Module Scenario.

Definition bob : User.t :=
  {| User.id := "u2"; User.name := Some "Bob";
     User.email := "alice@example.org"; User.emailVerified := None;
     User.image := None |}.

Definition phone_session : Session.t :=
  {| Session.sessionToken := "s2"; Session.userId := "u1";
     Session.expires := 4000 |}.

Definition alice_gitlab : Account.t :=
  {| Account.userId := "u1"; Account.type := "oauth";
     Account.provider := "gitlab"; Account.providerAccountId := "77";
     Account.refresh_token := None; Account.access_token := None;
     Account.expires_at := None; Account.token_type := None;
     Account.scope := None; Account.id_token := None;
     Account.session_state := None |}.

Definition rename : PartialUser.t :=
  {| PartialUser.id := val "u1"; PartialUser.name := val "Alice L.";
     PartialUser.email := None; PartialUser.emailVerified := val 1234%Z;
     PartialUser.image := null |}.

Definition renamed : User.t :=
  {| User.id := "u1"; User.name := Some "Alice L.";
     User.email := "alice@example.org"; User.emailVerified := Some 1234%Z;
     User.image := None |}.

(** Two users under one e-mail address, which the schema allows. *)
Definition shared_mail : World :=
  with_users [Sample.alice; bob] Sample.world.

Definition hello : Post.t :=
  {| Post.id := 1; Post.name := Some "hello"; Post.createdById := "u2";
     Post.createdAt := 500; Post.updatedAt := None |}.

(** The same, with a post that Bob wrote. *)
Definition blog : World :=
  {| db := {| users_rows := [Sample.alice; bob];
              accounts_rows := accounts_rows Sample.store;
              sessions_rows := sessions_rows Sample.store;
              verificationTokens_rows := verificationTokens_rows Sample.store;
              posts_rows := [hello] |};
     cuid := Sample.ids; cuid_calls := 0 |}.

(** A generator that hands out an id already in use. *)
Definition colliding : World :=
  {| db := Sample.store; cuid := λ _, "u1"; cuid_calls := 0 |}.

Definition carol : NewUser.t :=
  {| NewUser.id := val "evil"; NewUser.name := val "Carol";
     NewUser.email := "carol@example.org"; NewUser.emailVerified := None;
     NewUser.image := undefined |}.

Definition dave : NewUser.t :=
  {| NewUser.id := undefined; NewUser.name := val "Dave";
     NewUser.email := "dave@example.org"; NewUser.emailVerified := None;
     NewUser.image := null |}.

(** A session update that hands the session to a user that is not stored. *)
Definition to_ghost : PartialSession.t :=
  {| PartialSession.sessionToken := "s1";
     PartialSession.userId := Some "ghost";
     PartialSession.expires := None |}.

Definition ghost_session : Session.t :=
  {| Session.sessionToken := "s3"; Session.userId := "ghost";
     Session.expires := 4000 |}.

Definition calls : list call :=
  [ CreateUser (NewUser.Obj undefined (val "Carol") "carol@example.org"
                  None undefined);
    CreateSession phone_session;
    CreateSession phone_session;
    LinkAccount alice_gitlab;
    UpdateUser rename;
    CreateVerificationToken Sample.second_link;
    UseVerificationToken (ref_of Sample.magic_link);
    DeleteSession "s1";
    DeleteUser "u1";
    UnlinkAccount (account_ref_of Sample.orphan_github) ].

End Scenario.

(** ** Tactics *)

(** Unfolds the awaited statements of a method down to the lists they read
    and write. *)
Ltac run :=
  unfold mbind, mret, Async_bind, Async_ret, then_, try_catch, bind, ret, throw,
    Drizzle.select, Drizzle.where_, Drizzle.from;
  cbn [rows dbSchema.users dbSchema.accounts dbSchema.sessions
       dbSchema.verificationTokens db with_db fst snd].

(** Splits a membership in a concrete table into its rows. *)
Ltac each_row H :=
  cbn in H;
  repeat (apply elem_of_cons in H as [H|H]; [subst|]);
  try (apply elem_of_nil in H; contradiction).

(** Settles a decidable statement about concrete data by evaluation. *)
Ltac by_decide := apply (bool_decide_unpack _); vm_compute; exact I.

(** * Lemmas on selections *)

Section selection.
Context {A : Type} (p : A → Prop) `{∀ a, Decision (p a)}.

Lemma filter_none (l : list A) :
  (∀ a, a ∈ l → ¬ p a) → filter p l = [].
Proof.
  induction l as [|x l IH]; intros Hl; [done|].
  rewrite filter_cons_False by (apply Hl; left).
  apply IH. intros a Ha. apply Hl. by right.
Qed.

Lemma filter_all (l : list A) :
  (∀ a, a ∈ l → p a) → filter p l = l.
Proof.
  induction l as [|x l IH]; intros Hl; [done|].
  rewrite filter_cons_True by (apply Hl; left).
  f_equal. apply IH. intros a Ha. apply Hl. by right.
Qed.

Lemma filter_not_none (l : list A) :
  (∀ a, a ∈ l → ¬ p a) → filter (λ a, ¬ p a) l = l.
Proof.
  induction l as [|x l IH]; intros Hl; [done|].
  rewrite filter_cons_True by (apply Hl; left).
  f_equal. apply IH. intros a Ha. apply Hl. by right.
Qed.

Lemma fmap_if_none (f : A → A) (l : list A) :
  (∀ a, a ∈ l → ¬ p a) → (λ a, if decide (p a) then f a else a) <$> l = l.
Proof.
  induction l as [|x l IH]; intros Hl; [done|].
  rewrite fmap_cons, decide_False by (apply Hl; left).
  f_equal. apply IH. intros a Ha. apply Hl. by right.
Qed.

Lemma first_filter_none (l : list A) :
  (∀ a, a ∈ l → ¬ p a) → Js.first (filter p l) = undefined.
Proof. intros Hl. by rewrite filter_none. Qed.

Lemma first_filter_elem (l : list A) (r : A) :
  Js.first (filter p l) = val r → r ∈ l ∧ p r.
Proof.
  unfold Js.first. destruct (filter p l !! 0%nat) as [x|] eqn:Hx; [|done].
  intros [= ->]. apply list_elem_of_lookup_2, list_elem_of_filter in Hx.
  tauto.
Qed.

End selection.

(** Selecting on a key that no two rows share. *)
Section keyed.
Context {A K : Type} `{EqDecision K} (k : A → K).
Context (p : A → Prop) `{∀ a, Decision (p a)}.

Lemma keyed_split (l : list A) (r : A) :
  NoDup (k <$> l) → r ∈ l → (∀ a, p a ↔ k a = k r) →
  ∃ l1 l2, l = l1 ++ r :: l2
           ∧ (∀ a, a ∈ l1 → ¬ p a) ∧ (∀ a, a ∈ l2 → ¬ p a).
Proof.
  intros Hnd (l1 & l2 & ->)%list_elem_of_split Hp.
  exists l1, l2. split; [done|].
  rewrite fmap_app, fmap_cons in Hnd.
  apply NoDup_app in Hnd as (_ & Hdis & [Hr _]%NoDup_cons).
  split; intros a Ha Hpa%Hp.
  - apply (Hdis (k a)); [by apply list_elem_of_fmap_2|].
    rewrite Hpa. left.
  - apply Hr. rewrite <- Hpa. by apply list_elem_of_fmap_2.
Qed.

Lemma filter_keyed (l1 l2 : list A) (r : A) :
  p r → (∀ a, a ∈ l1 → ¬ p a) → (∀ a, a ∈ l2 → ¬ p a) →
  filter p (l1 ++ r :: l2) = [r].
Proof.
  intros Hr H1 H2.
  rewrite filter_app, filter_cons_True by done.
  by rewrite !filter_none.
Qed.

Lemma filter_not_keyed (l1 l2 : list A) (r : A) :
  p r → (∀ a, a ∈ l1 → ¬ p a) → (∀ a, a ∈ l2 → ¬ p a) →
  filter (λ a, ¬ p a) (l1 ++ r :: l2) = l1 ++ l2.
Proof.
  intros Hr H1 H2.
  rewrite filter_app, filter_cons_False by tauto.
  by rewrite !filter_not_none.
Qed.

Lemma fmap_if_keyed (f : A → A) (l1 l2 : list A) (r : A) :
  p r → (∀ a, a ∈ l1 → ¬ p a) → (∀ a, a ∈ l2 → ¬ p a) →
  (λ a, if decide (p a) then f a else a) <$> (l1 ++ r :: l2)
  = l1 ++ f r :: l2.
Proof.
  intros Hr H1 H2.
  rewrite fmap_app, fmap_cons, decide_True by done.
  by rewrite !fmap_if_none.
Qed.

End keyed.

(** * The statements the engine accepts *)

Section statements.
Context {R : Type} (t : table R).

Lemma insert_values_accepted (r : R) (w : World) :
  primaryKey t r ∉ primaryKey t <$> rows t (db w) →
  parent_stored (foreign_key t r) (db w) →
  Drizzle.insert_values t r w
  = (Returns (), with_db (set_rows t (rows t (db w) ++ [r]) (db w)) w).
Proof.
  intros Hfree Hfk. unfold Drizzle.insert_values.
  by rewrite decide_False, decide_True by done.
Qed.

Lemma insert_values_taken (r : R) (w : World) :
  primaryKey t r ∈ primaryKey t <$> rows t (db w) →
  Drizzle.insert_values t r w = (Throws (ER_DUP_ENTRY (tableName t)), w).
Proof. intros Htaken. unfold Drizzle.insert_values. by rewrite decide_True. Qed.

Lemma insert_values_orphan (r : R) (w : World) :
  primaryKey t r ∉ primaryKey t <$> rows t (db w) →
  ¬ parent_stored (foreign_key t r) (db w) →
  Drizzle.insert_values t r w
  = (Throws (ER_NO_REFERENCED_ROW_2 (tableName t)), w).
Proof.
  intros Hfree Hfk. unfold Drizzle.insert_values.
  by rewrite !decide_False by done.
Qed.

Lemma update_set_where_accepted (set : R → R) (p : R → Prop)
    `{∀ r, Decision (p r)} (w : World) :
  (∀ r, r ∈ rows t (db w) → p r →
        foreign_key t (set r) = foreign_key t r
        ∨ parent_stored (foreign_key t (set r)) (db w)) →
  Drizzle.update_set_where t set p w
  = (Returns (),
     with_db (set_rows t ((λ r, if decide (p r) then set r else r)
                            <$> rows t (db w)) (db w)) w).
Proof.
  intros Hok. unfold Drizzle.update_set_where.
  rewrite decide_False; [done|].
  intros (r & Hr & Hp & Hne & Hmiss)%Exists_exists.
  destruct (Hok r Hr Hp); done.
Qed.

Lemma update_set_where_rejected (set : R → R) (p : R → Prop)
    `{∀ r, Decision (p r)} (r : R) (w : World) :
  r ∈ rows t (db w) → p r →
  foreign_key t (set r) ≠ foreign_key t r →
  ¬ parent_stored (foreign_key t (set r)) (db w) →
  Drizzle.update_set_where t set p w
  = (Throws (ER_NO_REFERENCED_ROW_2 (tableName t)), w).
Proof.
  intros Hr Hp Hne Hmiss. unfold Drizzle.update_set_where.
  rewrite decide_True; [done|].
  apply Exists_exists. by exists r.
Qed.

Lemma delete_where_accepted (p : R → Prop) `{∀ r, Decision (p r)}
    (w : World) :
  (∀ r, r ∈ rows t (db w) → p r → referenced t (db w) r = false) →
  Drizzle.delete_where t p w
  = (Returns (),
     with_db (set_rows t (filter (λ r, ¬ p r) (rows t (db w))) (db w)) w).
Proof.
  intros Hok. unfold Drizzle.delete_where.
  rewrite decide_False; [done|].
  intros (r & Hr & Hp & Href)%Exists_exists.
  by rewrite (Hok r Hr Hp) in Href.
Qed.

Lemma delete_where_rejected (p : R → Prop) `{∀ r, Decision (p r)}
    (r : R) (w : World) :
  r ∈ rows t (db w) → p r → referenced t (db w) r = true →
  Drizzle.delete_where t p w
  = (Throws (ER_ROW_IS_REFERENCED_2 (tableName t)), w).
Proof.
  intros Hr Hp Href. unfold Drizzle.delete_where.
  rewrite decide_True; [done|].
  apply Exists_exists. by exists r.
Qed.

End statements.

(** * Running the adapter *)

Lemma with_db_same (w : World) : with_db (db w) w = w.
Proof. by destruct w. Qed.

Lemma set_users_same (s : Store) :
  set_rows dbSchema.users (users_rows s) s = s.
Proof. by destruct s. Qed.

Lemma set_sessions_same (s : Store) :
  set_rows dbSchema.sessions (sessions_rows s) s = s.
Proof. by destruct s. Qed.

Lemma set_verificationTokens_same (s : Store) :
  set_rows dbSchema.verificationTokens (verificationTokens_rows s) s = s.
Proof. by destruct s. Qed.

Section tokens.
Import dbSchema.

(** A [catch] that throws anew replaces whatever the body threw. *)
Lemma try_catch_rethrow {A} (body : Async A) (e e' : exn) (w w' : World) :
  body w = (Throws e, w') →
  try_catch body (λ _, throw e') w = (Throws e', w').
Proof. intros Hbody. unfold try_catch. by rewrite Hbody. Qed.

Lemma try_catch_returns {A} (body : Async A) (handler : exn → Async A)
    (a : A) (w w' : World) :
  body w = (Returns a, w') → try_catch body handler w = (Returns a, w').
Proof. intros Hbody. unfold try_catch. by rewrite Hbody. Qed.

(** What one call of [useVerificationToken] does, on any store: neither the
    select nor the delete throws, so the [catch] branch is not taken. *)
Lemma useVerificationToken_run (token : TokenRef.t) (w : World) :
  Adapter.useVerificationToken token w
  = (Returns (Js.nullish
                (Js.first (filter (token_matches token)
                             (verificationTokens_rows (db w)))) null),
     with_db (set_rows verificationTokens
                (filter (λ r, ¬ token_matches token r)
                   (verificationTokens_rows (db w))) (db w)) w).
Proof.
  unfold Adapter.useVerificationToken. run.
  by rewrite (delete_where_accepted verificationTokens).
Qed.

Lemma token_matches_key (r a : VerificationToken.t) :
  token_matches (ref_of r) a
  ↔ primaryKey verificationTokens a = primaryKey verificationTokens r.
Proof.
  unfold token_matches, Drizzle.and, Drizzle.eq. cbn. split.
  - by intros [-> ->].
  - by intros [= -> ->].
Qed.

(** Nothing matches: nothing is returned and nothing is deleted. *)
Lemma useVerificationToken_none (token : TokenRef.t) (w : World) :
  (∀ r, r ∈ verificationTokens_rows (db w) → ¬ token_matches token r) →
  Adapter.useVerificationToken token w = (Returns null, w).
Proof.
  intros Hno. rewrite useVerificationToken_run.
  rewrite (filter_none (token_matches token)) by exact Hno.
  rewrite (filter_not_none (token_matches token)) by exact Hno.
  by rewrite set_verificationTokens_same, with_db_same.
Qed.

End tokens.

(** C9. When no row of the verification-token table carries the given
    identifier together with the given token, [useVerificationToken] returns
    [null], throws nothing, and leaves the world as it was. *)
Theorem useVerificationToken_absent (token : TokenRef.t) (w : World) :
  (∀ r, r ∈ verificationTokens_rows (db w) →
        ¬ (VerificationToken.identifier r = TokenRef.identifier token
           ∧ VerificationToken.token r = TokenRef.token token)) →
  Adapter.useVerificationToken token w = (Returns null, w).
Proof.
  intros Hno. apply useVerificationToken_none.
  intros r Hr. unfold token_matches, Drizzle.and, Drizzle.eq.
  exact (Hno r Hr).
Qed.

Lemma useVerificationToken_absent_witness :
  (∀ r, r ∈ verificationTokens_rows (db Sample.world) →
        ¬ (VerificationToken.identifier r = "bob@example.org"
           ∧ VerificationToken.token r = "t1"))
  ∧ Adapter.useVerificationToken (TokenRef.Obj "bob@example.org" "t1")
      Sample.world
    = (Returns null, Sample.world).
Proof.
  assert (Hno : ∀ r, r ∈ verificationTokens_rows (db Sample.world) →
                     ¬ (VerificationToken.identifier r = "bob@example.org"
                        ∧ VerificationToken.token r = "t1")).
  { intros r Hr [Hi _]. each_row Hr. discriminate. }
  split; [exact Hno|].
  exact (useVerificationToken_absent (TokenRef.Obj "bob@example.org" "t1")
           Sample.world Hno).
Defined.

(** C1, as the code has it. For a row stored in the verification-token table
    (whose rows have pairwise different keys), the first call of
    [useVerificationToken] with the row's identifier and token returns that
    row and deletes it; the second call finds nothing and returns [null]: it
    does not throw, and it changes nothing. *)
Theorem useVerificationToken_twice (r : VerificationToken.t) (w : World) :
  pk_ok dbSchema.verificationTokens (db w) →
  r ∈ verificationTokens_rows (db w) →
  ∃ w1,
    Adapter.useVerificationToken (ref_of r) w = (Returns (val r), w1)
    ∧ (r ∉ verificationTokens_rows (db w1))
    ∧ Adapter.useVerificationToken (ref_of r) w1 = (Returns null, w1).
Proof.
  intros Hpk Hr.
  destruct (keyed_split (primaryKey dbSchema.verificationTokens)
              (token_matches (ref_of r)) _ r Hpk Hr (token_matches_key r))
    as (l1 & l2 & Hl & H1 & H2).
  assert (Hrr : token_matches (ref_of r) r) by (by apply token_matches_key).
  eexists. split; [|split].
  - rewrite useVerificationToken_run. cbn [rows dbSchema.verificationTokens] in Hl.
    rewrite Hl, (filter_keyed (token_matches (ref_of r))) by done.
    rewrite (filter_not_keyed (token_matches (ref_of r))) by done.
    reflexivity.
  - cbn. rewrite elem_of_app. intros [?%H1|?%H2]; done.
  - apply useVerificationToken_none. cbn.
    intros a [?%H1|?%H2]%elem_of_app; done.
Qed.

Lemma useVerificationToken_twice_witness :
  pk_ok dbSchema.verificationTokens (db Sample.world)
  ∧ Sample.magic_link ∈ verificationTokens_rows (db Sample.world)
  ∧ ∃ w1,
      Adapter.useVerificationToken (ref_of Sample.magic_link) Sample.world
      = (Returns (val Sample.magic_link), w1)
      ∧ (Sample.magic_link ∉ verificationTokens_rows (db w1))
      ∧ Adapter.useVerificationToken (ref_of Sample.magic_link) w1
        = (Returns null, w1).
Proof.
  assert (Hpk : pk_ok dbSchema.verificationTokens (db Sample.world)).
  { by_decide. }
  assert (Hin : Sample.magic_link ∈ verificationTokens_rows (db Sample.world)).
  { vm_compute. left. }
  split; [exact Hpk|]. split; [exact Hin|].
  exact (useVerificationToken_twice Sample.magic_link Sample.world Hpk Hin).
Defined.

(** C1 as stated fails: with one stored token, the second call returns
    [null] instead of throwing "No verification token found.". *)
Lemma useVerificationToken_second_call_returns :
  let token := ref_of Sample.magic_link in
  let first := Adapter.useVerificationToken token Sample.world in
  let second := Adapter.useVerificationToken token first.2 in
  Sample.magic_link ∈ verificationTokens_rows (db Sample.world)
  ∧ first.1 = Returns (val Sample.magic_link)
  ∧ second.1 = Returns null
  ∧ second.1 ≠ Throws (Error "No verification token found.").
Proof.
  cbv zeta. split; [vm_compute; left|].
  split; [reflexivity|]. split; [reflexivity|]. discriminate.
Qed.

Section sessions.
Import dbSchema.

Lemma with_sessions_same (w : World) :
  with_sessions (sessions_rows (db w)) w = w.
Proof. by destruct w as [[] ? ?]. Qed.

Lemma deleteSession_run (sessionToken : string) (w : World) :
  Adapter.deleteSession sessionToken w
  = (Returns (Js.nullish
                (Js.first (filter (Drizzle.eq Session.sessionToken sessionToken)
                             (sessions_rows (db w)))) null),
     with_sessions
       (filter (λ r, ¬ Drizzle.eq Session.sessionToken sessionToken r)
          (sessions_rows (db w))) w).
Proof.
  unfold Adapter.deleteSession. run.
  by rewrite (delete_where_accepted sessions).
Qed.

Lemma updateSession_run (data : PartialSession.t) (w : World) :
  let p := Drizzle.eq Session.sessionToken (PartialSession.sessionToken data) in
  let updated := (λ r, if decide (p r) then PartialSession.set data r else r)
                   <$> sessions_rows (db w) in
  Adapter.updateSession data w
  = if decide (Drizzle.dangles sessions (PartialSession.set data) p (db w))
    then (Throws (ER_NO_REFERENCED_ROW_2 "discord-clone_session"), w)
    else (Returns (Js.first (filter p updated)), with_sessions updated w).
Proof.
  cbv zeta. unfold Adapter.updateSession. run.
  unfold Drizzle.update_set_where. by destruct (decide _).
Qed.

(** The update is rejected when it hands a session with the given token to
    a user that is not stored. *)
Lemma session_dangles (data : PartialSession.t) (s : Store) :
  Drizzle.dangles sessions (PartialSession.set data)
    (Drizzle.eq Session.sessionToken (PartialSession.sessionToken data)) s
  ↔ ∃ r userId,
      r ∈ sessions_rows s
      ∧ Session.sessionToken r = PartialSession.sessionToken data
      ∧ PartialSession.userId data = Some userId
      ∧ userId ≠ Session.userId r
      ∧ ¬ names_user userId s.
Proof.
  unfold Drizzle.dangles. rewrite Exists_exists.
  cbn [rows sessions foreign_key]. unfold PartialSession.set, Drizzle.eq.
  cbn [Session.userId]. split.
  - intros (r & Hr & Htok & Hne & Hmiss).
    destruct (PartialSession.userId data) as [userId|]; cbn in *; [|done].
    exists r, userId. repeat split; [done..| |done]. congruence.
  - intros (r & userId & Hr & Htok & Hdata & Hne & Hmiss).
    exists r. rewrite Hdata. cbn. repeat split; [done..| |done]. congruence.
Qed.

Lemma session_key (s a : Session.t) :
  Drizzle.eq Session.sessionToken (Session.sessionToken s) a
  ↔ primaryKey sessions a = primaryKey sessions s.
Proof. reflexivity. Qed.

End sessions.

(** C5. [deleteSession] on a token that no session row carries returns [null]
    and leaves the world, every row of every table, as it was. On the token
    of a stored session (the rows of the table having pairwise different
    tokens) it returns that row and the session table loses that row and no
    other; the other tables are untouched. *)
Theorem deleteSession_frame (sessionToken : string) (w : World) :
  ((∀ s, s ∈ sessions_rows (db w) → Session.sessionToken s ≠ sessionToken) →
   Adapter.deleteSession sessionToken w = (Returns null, w))
  ∧ (∀ s, pk_ok dbSchema.sessions (db w) →
          s ∈ sessions_rows (db w) →
          Session.sessionToken s = sessionToken →
          ∃ l1 l2,
            sessions_rows (db w) = l1 ++ s :: l2
            ∧ Adapter.deleteSession sessionToken w
              = (Returns (val s), with_sessions (l1 ++ l2) w)).
Proof.
  split.
  - intros Hno. rewrite deleteSession_run.
    rewrite (filter_none (Drizzle.eq Session.sessionToken sessionToken))
      by exact Hno.
    rewrite (filter_not_none (Drizzle.eq Session.sessionToken sessionToken))
      by exact Hno.
    by rewrite with_sessions_same.
  - intros s Hpk Hs <-.
    destruct (keyed_split (primaryKey dbSchema.sessions)
                (Drizzle.eq Session.sessionToken (Session.sessionToken s))
                _ s Hpk Hs (session_key s))
      as (l1 & l2 & Hl & H1 & H2).
    exists l1, l2. cbn [rows dbSchema.sessions] in Hl. split; [done|].
    rewrite deleteSession_run, Hl.
    rewrite (filter_keyed
               (Drizzle.eq Session.sessionToken (Session.sessionToken s)))
      by done.
    rewrite (filter_not_keyed
               (Drizzle.eq Session.sessionToken (Session.sessionToken s)))
      by done.
    reflexivity.
Qed.

Lemma deleteSession_frame_witness :
  ((∀ s, s ∈ sessions_rows (db Sample.world) → Session.sessionToken s ≠ "s2")
   ∧ Adapter.deleteSession "s2" Sample.world = (Returns null, Sample.world))
  ∧ (pk_ok dbSchema.sessions (db Sample.world)
     ∧ Sample.alice_session ∈ sessions_rows (db Sample.world)
     ∧ Session.sessionToken Sample.alice_session = "s1"
     ∧ ∃ l1 l2,
         sessions_rows (db Sample.world) = l1 ++ Sample.alice_session :: l2
         ∧ Adapter.deleteSession "s1" Sample.world
           = (Returns (val Sample.alice_session),
              with_sessions (l1 ++ l2) Sample.world)).
Proof.
  assert (Hno : ∀ s, s ∈ sessions_rows (db Sample.world) →
                     Session.sessionToken s ≠ "s2").
  { intros s Hs. each_row Hs. discriminate. }
  assert (Hpk : pk_ok dbSchema.sessions (db Sample.world)) by by_decide.
  assert (Hin : Sample.alice_session ∈ sessions_rows (db Sample.world)).
  { cbn. left. }
  split.
  - split; [exact Hno|].
    exact (proj1 (deleteSession_frame "s2" Sample.world) Hno).
  - split; [exact Hpk|]. split; [exact Hin|]. split; [reflexivity|].
    exact (proj2 (deleteSession_frame "s1" Sample.world)
             Sample.alice_session Hpk Hin eq_refl).
Defined.

(** C7, as the code has it. When no session row carries
    [data.sessionToken], [updateSession] changes nothing and returns
    [undefined]. When a row carries it (tokens being the primary key) and the
    [userId] of [data], if it has one, is the row's own or the id of a stored
    user, the given fields are written into that row, the table is read
    again by the token, and the row as updated is returned. When the row
    would go to a user that is not stored, the engine rejects the update:
    [updateSession] throws and changes nothing. *)
Theorem updateSession_rereads (data : PartialSession.t) (w : World) :
  ((∀ s, s ∈ sessions_rows (db w) →
         Session.sessionToken s ≠ PartialSession.sessionToken data) →
   Adapter.updateSession data w = (Returns undefined, w))
  ∧ (∀ s, pk_ok dbSchema.sessions (db w) →
          s ∈ sessions_rows (db w) →
          Session.sessionToken s = PartialSession.sessionToken data →
          (∀ userId, PartialSession.userId data = Some userId →
                     userId = Session.userId s ∨ names_user userId (db w)) →
          ∃ l1 l2,
            sessions_rows (db w) = l1 ++ s :: l2
            ∧ Adapter.updateSession data w
              = (Returns (val (PartialSession.set data s)),
                 with_sessions (l1 ++ PartialSession.set data s :: l2) w))
  ∧ (∀ s userId, s ∈ sessions_rows (db w) →
                 Session.sessionToken s = PartialSession.sessionToken data →
                 PartialSession.userId data = Some userId →
                 userId ≠ Session.userId s →
                 ¬ names_user userId (db w) →
                 Adapter.updateSession data w
                 = (Throws (ER_NO_REFERENCED_ROW_2 "discord-clone_session"),
                    w)).
Proof.
  set (p := Drizzle.eq Session.sessionToken (PartialSession.sessionToken data)).
  split; [|split].
  - intros Hno. rewrite updateSession_run. cbv zeta. fold p.
    rewrite decide_False.
    + rewrite (fmap_if_none p) by exact Hno.
      rewrite (filter_none p) by exact Hno.
      by rewrite with_sessions_same.
    + intros (r & _ & Hr & Htok & _)%session_dangles. by apply (Hno r Hr).
  - intros s Hpk Hs Htok Huser.
    assert (Hkey : ∀ a, p a ↔ primaryKey dbSchema.sessions a
                              = primaryKey dbSchema.sessions s).
    { intros a. unfold p. rewrite <- Htok. apply session_key. }
    destruct (keyed_split (primaryKey dbSchema.sessions) p _ s Hpk Hs Hkey)
      as (l1 & l2 & Hl & H1 & H2).
    exists l1, l2. cbn [rows dbSchema.sessions] in Hl. split; [done|].
    rewrite updateSession_run. cbv zeta. fold p. rewrite decide_False.
    + rewrite Hl. rewrite (fmap_if_keyed p) by done.
      rewrite (filter_keyed p); done.
    + intros (r & userId & Hr & Hrtok & Hdata & Hne & Hmiss)%session_dangles.
      assert (r = s) as ->.
      { rewrite Hl in Hr. apply elem_of_app in Hr as [Hr|Hr].
        - by destruct (H1 r Hr).
        - apply elem_of_cons in Hr as [->|Hr]; [done|]. by destruct (H2 r Hr). }
      destruct (Huser userId Hdata); done.
  - intros s userId Hs Htok Hdata Hne Hmiss.
    rewrite updateSession_run. cbv zeta. rewrite decide_True; [done|].
    apply session_dangles. by exists s, userId.
Qed.

Lemma updateSession_rereads_witness :
  let renew := PartialSession.Obj "s1" (Some "u1") (Some 5000%Z) in
  let stray := PartialSession.Obj "s2" None (Some 5000%Z) in
  ((∀ s, s ∈ sessions_rows (db Sample.world) → Session.sessionToken s ≠ "s2")
   ∧ Adapter.updateSession stray Sample.world
     = (Returns undefined, Sample.world))
  ∧ (pk_ok dbSchema.sessions (db Sample.world)
     ∧ Sample.alice_session ∈ sessions_rows (db Sample.world)
     ∧ (∀ userId, PartialSession.userId renew = Some userId →
                  userId = Session.userId Sample.alice_session
                  ∨ names_user userId (db Sample.world))
     ∧ ∃ l1 l2,
         sessions_rows (db Sample.world) = l1 ++ Sample.alice_session :: l2
         ∧ Adapter.updateSession renew Sample.world
           = (Returns (val (Session.Row "s1" "u1" 5000)),
              with_sessions (l1 ++ Session.Row "s1" "u1" 5000 :: l2)
                Sample.world))
  ∧ (Sample.alice_session ∈ sessions_rows (db Sample.world)
     ∧ PartialSession.userId Scenario.to_ghost = Some "ghost"
     ∧ "ghost" ≠ Session.userId Sample.alice_session
     ∧ ¬ names_user "ghost" (db Sample.world)
     ∧ Adapter.updateSession Scenario.to_ghost Sample.world
       = (Throws (ER_NO_REFERENCED_ROW_2 "discord-clone_session"),
          Sample.world)).
Proof.
  intros renew stray.
  assert (Hno : ∀ s, s ∈ sessions_rows (db Sample.world) →
                     Session.sessionToken s ≠ "s2").
  { intros s Hs. each_row Hs. discriminate. }
  assert (Hpk : pk_ok dbSchema.sessions (db Sample.world)) by by_decide.
  assert (Hin : Sample.alice_session ∈ sessions_rows (db Sample.world)).
  { cbn. left. }
  assert (Huser : ∀ userId, PartialSession.userId renew = Some userId →
                            userId = Session.userId Sample.alice_session
                            ∨ names_user userId (db Sample.world)).
  { intros userId [= <-]. by left. }
  assert (Hne : "ghost" ≠ Session.userId Sample.alice_session)
    by discriminate.
  assert (Hmiss : ¬ names_user "ghost" (db Sample.world)) by by_decide.
  split; [|split].
  - split; [exact Hno|].
    exact (proj1 (updateSession_rereads stray Sample.world) Hno).
  - split; [exact Hpk|]. split; [exact Hin|]. split; [exact Huser|].
    exact (proj1 (proj2 (updateSession_rereads renew Sample.world))
             Sample.alice_session Hpk Hin eq_refl Huser).
  - split; [exact Hin|]. split; [reflexivity|]. split; [exact Hne|].
    split; [exact Hmiss|].
    exact (proj2 (proj2 (updateSession_rereads Scenario.to_ghost Sample.world))
             Sample.alice_session "ghost" Hin eq_refl eq_refl Hne Hmiss).
Defined.

(** C7 as stated fails: on a session update that carries the id of a user
    that is not stored, [updateSession] returns neither the updated session
    nor [undefined]; it throws, and the row stays as it was. *)
Lemma updateSession_to_ghost_throws :
  let call := Adapter.updateSession Scenario.to_ghost Sample.world in
  Sample.alice_session ∈ sessions_rows (db Sample.world)
  ∧ Session.sessionToken Sample.alice_session
    = PartialSession.sessionToken Scenario.to_ghost
  ∧ call = (Throws (ER_NO_REFERENCED_ROW_2 "discord-clone_session"),
            Sample.world)
  ∧ ∀ r, call.1 ≠ Returns r.
Proof.
  cbv zeta. split; [cbn; left|]. split; [reflexivity|].
  assert (Hcall : Adapter.updateSession Scenario.to_ghost Sample.world
                  = (Throws (ER_NO_REFERENCED_ROW_2 "discord-clone_session"),
                     Sample.world)) by (vm_compute; reflexivity).
  split; [exact Hcall|]. intros r. by rewrite Hcall.
Qed.

Section users.
Import dbSchema.

Lemma not_string_true (x : js string) :
  Js.not_string x = true ↔ x = undefined ∨ x = null ∨ x = val "".
Proof.
  unfold Js.not_string. rewrite bool_decide_eq_true.
  destruct x as [| |s]; cbn; [naive_solver..|].
  destruct (decide (s = "")) as [->|Hs]; [naive_solver|].
  split; [done|]. intros [|[|[= ->]]]; done.
Qed.

Lemma truthy_None (x : js string) :
  Js.not_string x = true → Js.truthy x = None.
Proof. unfold Js.not_string. by rewrite bool_decide_eq_true. Qed.

Lemma getUser_run (data : string) (w : World) :
  Adapter.getUser data w
  = (Returns (Js.nullish
                (Js.first (filter (Drizzle.eq User.id data)
                             (users_rows (db w)))) null), w).
Proof. reflexivity. Qed.

Lemma getUserByEmail_run (data : string) (w : World) :
  Adapter.getUserByEmail data w
  = (Returns (Js.nullish
                (Js.first (filter (Drizzle.eq User.email data)
                             (users_rows (db w)))) null), w).
Proof. reflexivity. Qed.

End users.

(** C2. When the [id] of its argument is falsy ([undefined], [null] or the
    empty string), [updateUser] throws the error "No user id." and the world
    is the one it was called in: no statement has run. *)
Theorem updateUser_without_id (data : PartialUser.t) (w : World) :
  Js.not_string (PartialUser.id data) = true →
  Adapter.updateUser data w = (Throws (Error "No user id."), w).
Proof.
  intros Hid%truthy_None. unfold Adapter.updateUser. by rewrite Hid.
Qed.

Lemma updateUser_without_id_witness :
  let data := PartialUser.Obj undefined (val "Mallory") None undefined null in
  Js.not_string (PartialUser.id data) = true
  ∧ Adapter.updateUser data Sample.world
    = (Throws (Error "No user id."), Sample.world).
Proof.
  intros data. split; [reflexivity|].
  exact (updateUser_without_id data Sample.world eq_refl).
Defined.

Section joins.
Import dbSchema.

Lemma bind_none {A B} (f : A → list B) (l : list A) :
  (∀ a, a ∈ l → f a = []) → l ≫= f = [].
Proof.
  induction l as [|x l IH]; intros Hl; [done|].
  rewrite bind_cons, (Hl x) by left.
  apply IH. intros a Ha. apply Hl. by right.
Qed.

Lemma getSessionAndUser_run (data : string) (w : World) :
  Adapter.getSessionAndUser data w
  = (Returns
       (Js.nullish
          (Js.first
             ((λ su, SessionAndUser.Obj su.1 su.2)
                <$> (filter (Drizzle.eq Session.sessionToken data)
                       (sessions_rows (db w))
                     ≫= λ s, (λ u, (s, u))
                               <$> filter (λ u, User.id u = Session.userId s)
                                     (users_rows (db w)))))
          null), w).
Proof. reflexivity. Qed.

Lemma getUserByAccount_run (account : AccountRef.t) (w : World) :
  Adapter.getUserByAccount account w
  = (Returns
       match Js.first
               ((λ au, AccountAndUser.Obj au.1 au.2)
                  <$> (filter (account_matches account)
                         (accounts_rows (db w))
                       ≫= left_rows (users_rows (db w)))) with
       | undefined | null => null
       | val dbAccount => AccountAndUser.user dbAccount
       end, w).
Proof.
  unfold Adapter.getUserByAccount. run.
  unfold Drizzle.leftJoin, Drizzle.where_, Drizzle.from.
  cbn [rows accounts users].
  fold (account_matches account). fold (left_rows (users_rows (db w))).
  by destruct (Js.first _).
Qed.

Lemma account_key (account : AccountRef.t) (r : Account.t) :
  account_matches account r →
  ∀ a, account_matches account a
       ↔ primaryKey accounts a = primaryKey accounts r.
Proof.
  unfold account_matches, Drizzle.and, Drizzle.eq. cbn.
  intros [<- <-] a. split.
  - by intros [-> ->].
  - by intros [= -> ->].
Qed.

End joins.

(** C6. The three pure lookups return [null], and throw nothing, when no row
    matches: [getUser] when no user has the id, [getUserByEmail] when no user
    has the email, [getSessionAndUser] when no session with the token joins
    to a user. The world is unchanged. *)
Theorem lookups_return_null (w : World) :
  (∀ id, (∀ u, u ∈ users_rows (db w) → User.id u ≠ id) →
         Adapter.getUser id w = (Returns null, w))
  ∧ (∀ email, (∀ u, u ∈ users_rows (db w) → User.email u ≠ email) →
              Adapter.getUserByEmail email w = (Returns null, w))
  ∧ (∀ sessionToken,
       (∀ s u, s ∈ sessions_rows (db w) → u ∈ users_rows (db w) →
               Session.sessionToken s = sessionToken →
               User.id u ≠ Session.userId s) →
       Adapter.getSessionAndUser sessionToken w = (Returns null, w)).
Proof.
  split; [|split].
  - intros id Hno. rewrite getUser_run.
    by rewrite (filter_none (Drizzle.eq User.id id)) by exact Hno.
  - intros email Hno. rewrite getUserByEmail_run.
    by rewrite (filter_none (Drizzle.eq User.email email)) by exact Hno.
  - intros tok Hno. rewrite getSessionAndUser_run.
    rewrite bind_none; [done|].
    intros s [Hs Hin]%list_elem_of_filter.
    rewrite filter_none; [done|].
    intros u Hu. by apply Hno.
Qed.

Lemma lookups_return_null_witness :
  ((∀ u, u ∈ users_rows (db Sample.world) → User.id u ≠ "u2")
   ∧ Adapter.getUser "u2" Sample.world = (Returns null, Sample.world))
  ∧ ((∀ u, u ∈ users_rows (db Sample.world) →
           User.email u ≠ "bob@example.org")
     ∧ Adapter.getUserByEmail "bob@example.org" Sample.world
       = (Returns null, Sample.world))
  ∧ ((∀ s u, s ∈ sessions_rows (db Sample.world) →
             u ∈ users_rows (db Sample.world) →
             Session.sessionToken s = "s2" → User.id u ≠ Session.userId s)
     ∧ Adapter.getSessionAndUser "s2" Sample.world
       = (Returns null, Sample.world)).
Proof.
  assert (H1 : ∀ u, u ∈ users_rows (db Sample.world) → User.id u ≠ "u2").
  { intros u Hu. each_row Hu. discriminate. }
  assert (H2 : ∀ u, u ∈ users_rows (db Sample.world) →
                    User.email u ≠ "bob@example.org").
  { intros u Hu. each_row Hu. discriminate. }
  assert (H3 : ∀ s u, s ∈ sessions_rows (db Sample.world) →
                      u ∈ users_rows (db Sample.world) →
                      Session.sessionToken s = "s2" →
                      User.id u ≠ Session.userId s).
  { intros s u Hs _ Htok. each_row Hs. discriminate. }
  pose proof (lookups_return_null Sample.world) as (G1 & G2 & G3).
  split; [|split].
  - split; [exact H1|]. exact (G1 "u2" H1).
  - split; [exact H2|]. exact (G2 "bob@example.org" H2).
  - split; [exact H3|]. exact (G3 "s2" H3).
Defined.

(** The lookups throw on no input at all, and never return [undefined]. *)
Lemma lookups_never_throw (w : World) :
  (∀ id, ∃ r, Adapter.getUser id w = (Returns r, w) ∧ r ≠ undefined)
  ∧ (∀ email, ∃ r, Adapter.getUserByEmail email w = (Returns r, w)
                   ∧ r ≠ undefined)
  ∧ (∀ tok, ∃ r, Adapter.getSessionAndUser tok w = (Returns r, w)
                 ∧ r ≠ undefined).
Proof.
  split; [|split]; intros x; eexists; (split; [reflexivity|]);
    match goal with |- Js.nullish ?y _ ≠ _ => by destruct y end.
Qed.

(** C4. [getUserByAccount] returns [null] when no account row carries the
    given provider and providerAccountId; it returns [null] as well when the
    account row exists and no user row has the account's [userId]; and when
    the account row joins to a user row it returns that user. (Accounts are
    unique by their compound key, users by their id.) *)
Theorem getUserByAccount_cases (account : AccountRef.t) (w : World) :
  let matches (a : Account.t) :=
    Account.providerAccountId a = AccountRef.providerAccountId account
    ∧ Account.provider a = AccountRef.provider account in
  ((∀ a, a ∈ accounts_rows (db w) → ¬ matches a) →
   Adapter.getUserByAccount account w = (Returns null, w))
  ∧ (∀ a, pk_ok dbSchema.accounts (db w) →
          a ∈ accounts_rows (db w) → matches a →
          (∀ u, u ∈ users_rows (db w) → User.id u ≠ Account.userId a) →
          Adapter.getUserByAccount account w = (Returns null, w))
  ∧ (∀ a u, pk_ok dbSchema.accounts (db w) → pk_ok dbSchema.users (db w) →
            a ∈ accounts_rows (db w) → matches a →
            u ∈ users_rows (db w) → User.id u = Account.userId a →
            Adapter.getUserByAccount account w = (Returns (val u), w)).
Proof.
  intros matches. split; [|split].
  - intros Hno. rewrite getUserByAccount_run.
    by rewrite (filter_none (account_matches account)) by exact Hno.
  - intros a Hpk Ha Hm Hno. rewrite getUserByAccount_run.
    destruct (keyed_split (primaryKey dbSchema.accounts)
                (account_matches account) _ a Hpk Ha
                (account_key account a Hm))
      as (l1 & l2 & Hl & H1 & H2).
    cbn [rows dbSchema.accounts] in Hl.
    rewrite Hl, (filter_keyed (account_matches account)) by done.
    rewrite bind_singleton. unfold left_rows.
    rewrite filter_none; [done|].
    intros u Hu Heq. by apply (Hno u Hu).
  - intros a u Hpka Hpku Ha Hm Hu Hid. rewrite getUserByAccount_run.
    destruct (keyed_split (primaryKey dbSchema.accounts)
                (account_matches account) _ a Hpka Ha
                (account_key account a Hm))
      as (l1 & l2 & Hl & H1 & H2).
    cbn [rows dbSchema.accounts] in Hl.
    rewrite Hl, (filter_keyed (account_matches account)) by done.
    rewrite bind_singleton. unfold left_rows.
    destruct (keyed_split (primaryKey dbSchema.users)
                (λ u', Account.userId a = User.id u') _ u Hpku Hu)
      as (k1 & k2 & Hk & K1 & K2).
    { intros u'. cbn. rewrite <- Hid. split; congruence. }
    cbn [rows dbSchema.users] in Hk.
    rewrite Hk, (filter_keyed (λ u', Account.userId a = User.id u')); done.
Qed.

Lemma getUserByAccount_cases_witness :
  let unknown := AccountRef.Obj "github" "9999" in
  let orphan := AccountRef.Obj "github" "4712" in
  let linked := AccountRef.Obj "github" "4711" in
  ((∀ a, a ∈ accounts_rows (db Sample.world) →
         ¬ (Account.providerAccountId a = "9999"
            ∧ Account.provider a = "github"))
   ∧ Adapter.getUserByAccount unknown Sample.world
     = (Returns null, Sample.world))
  ∧ (Sample.orphan_github ∈ accounts_rows (db Sample.world)
     ∧ (∀ u, u ∈ users_rows (db Sample.world) → User.id u ≠ "u9")
     ∧ Adapter.getUserByAccount orphan Sample.world
       = (Returns null, Sample.world))
  ∧ (Sample.alice_github ∈ accounts_rows (db Sample.world)
     ∧ Sample.alice ∈ users_rows (db Sample.world)
     ∧ Adapter.getUserByAccount linked Sample.world
       = (Returns (val Sample.alice), Sample.world)).
Proof.
  intros unknown orphan linked.
  assert (Hpka : pk_ok dbSchema.accounts (db Sample.world)) by by_decide.
  assert (Hpku : pk_ok dbSchema.users (db Sample.world)) by by_decide.
  assert (Hno : ∀ a, a ∈ accounts_rows (db Sample.world) →
                     ¬ (Account.providerAccountId a = "9999"
                        ∧ Account.provider a = "github")).
  { intros a Ha [Hid _]. each_row Ha; discriminate. }
  assert (Ho : Sample.orphan_github ∈ accounts_rows (db Sample.world)).
  { cbn. right. left. }
  assert (Hnu : ∀ u, u ∈ users_rows (db Sample.world) → User.id u ≠ "u9").
  { intros u Hu. each_row Hu. discriminate. }
  assert (Ha : Sample.alice_github ∈ accounts_rows (db Sample.world)).
  { cbn. left. }
  assert (Hu : Sample.alice ∈ users_rows (db Sample.world)).
  { cbn. left. }
  split; [|split].
  - split; [exact Hno|].
    exact (proj1 (getUserByAccount_cases unknown Sample.world) Hno).
  - split; [exact Ho|]. split; [exact Hnu|].
    exact (proj1 (proj2 (getUserByAccount_cases orphan Sample.world))
             Sample.orphan_github Hpka Ho (conj eq_refl eq_refl) Hnu).
  - split; [exact Ha|]. split; [exact Hu|].
    exact (proj2 (proj2 (getUserByAccount_cases linked Sample.world))
             Sample.alice_github Sample.alice Hpka Hpku Ha
             (conj eq_refl eq_refl) Hu eq_refl).
Defined.

Section creation.
Import dbSchema.

Lemma createUser_run (data : NewUser.t) (w : World) :
  let row := new_user_row data (next_id w) in
  Adapter.createUser data w
  = if decide (next_id w ∈ User.id <$> users_rows (db w))
    then (Throws (ER_DUP_ENTRY "discord-clone_user"), after_createId w)
    else (Returns (Js.first (filter (Drizzle.eq User.id (next_id w))
                               (users_rows (db w) ++ [row]))),
          with_users (users_rows (db w) ++ [row]) (after_createId w)).
Proof.
  cbv zeta. unfold Adapter.createUser, createId. run.
  unfold Drizzle.insert_values.
  cbn [rows users db primaryKey tableName createTable].
  fold (next_id w). by destruct (decide _).
Qed.

Lemma createUser_fresh (data : NewUser.t) (w : World) :
  let row := new_user_row data (next_id w) in
  next_id w ∉ User.id <$> users_rows (db w) →
  Adapter.createUser data w
  = (Returns (val row),
     with_users (users_rows (db w) ++ [row]) (after_createId w)).
Proof.
  cbv zeta. intros Hfresh. rewrite createUser_run. cbv zeta.
  rewrite decide_False by done.
  rewrite filter_app, (filter_none (Drizzle.eq User.id (next_id w))).
  - by rewrite filter_cons_True by done.
  - intros u Hu Hid. apply Hfresh. rewrite <- Hid.
    by apply list_elem_of_fmap_2.
Qed.

Lemma createVerificationToken_run (token : VerificationToken.t) (w : World) :
  Adapter.createVerificationToken token w
  = if decide (primaryKey verificationTokens token
               ∈ primaryKey verificationTokens
                   <$> verificationTokens_rows (db w))
    then (Throws (ER_DUP_ENTRY "discord-clone_verificationToken"), w)
    else (Returns
            (Js.first
               (filter (Drizzle.eq VerificationToken.identifier
                          (VerificationToken.identifier token))
                  (verificationTokens_rows (db w) ++ [token]))),
          with_verificationTokens (verificationTokens_rows (db w) ++ [token])
            w).
Proof.
  unfold Adapter.createVerificationToken. run.
  unfold Drizzle.insert_values.
  cbn [rows verificationTokens db tableName createTable].
  by destruct (decide _).
Qed.

(** When an older row has the identifier, the re-read yields that row. *)
Lemma createVerificationToken_older (token older : VerificationToken.t)
    (l : list VerificationToken.t) (w : World) :
  verificationTokens_rows (db w) = older :: l →
  VerificationToken.identifier older = VerificationToken.identifier token →
  primaryKey verificationTokens token
    ∉ primaryKey verificationTokens <$> verificationTokens_rows (db w) →
  Adapter.createVerificationToken token w
  = (Returns (val older),
     with_verificationTokens (verificationTokens_rows (db w) ++ [token]) w).
Proof.
  intros Hl Hid Hfree. rewrite createVerificationToken_run.
  rewrite decide_False by done. rewrite Hl. cbn [app].
  by rewrite filter_cons_True by done.
Qed.

(** When no older row has the identifier, it yields the row just stored. *)
Lemma createVerificationToken_alone (token : VerificationToken.t)
    (w : World) :
  (∀ r, r ∈ verificationTokens_rows (db w) →
        VerificationToken.identifier r
        ≠ VerificationToken.identifier token) →
  Adapter.createVerificationToken token w
  = (Returns (val token),
     with_verificationTokens (verificationTokens_rows (db w) ++ [token]) w).
Proof.
  intros Hno. rewrite createVerificationToken_run.
  rewrite decide_False.
  - rewrite filter_app,
      (filter_none (Drizzle.eq VerificationToken.identifier
                      (VerificationToken.identifier token))) by exact Hno.
    by rewrite filter_cons_True by done.
  - intros (r & Hk & Hr)%list_elem_of_fmap_1. apply (Hno r Hr).
    by injection Hk as -> _.
Qed.

End creation.

(** C3, as the code has it. [createUser] takes the next id of [createId],
    which then moves on. When that id is not the id of a stored user,
    [createUser] stores one more row, made of the fields it was given and of
    that id, returns it, and [getUser] on that id then returns the same row.
    When the id is the id of a stored user, the insert is rejected:
    [createUser] throws the duplicate-entry error of the user table and
    stores nothing. *)
Theorem createUser_then_getUser (data : NewUser.t) (w : World) :
  let id := next_id w in
  let row := {| User.id := id;
                User.name := Js.column (NewUser.name data);
                User.email := NewUser.email data;
                User.emailVerified := NewUser.emailVerified data;
                User.image := Js.column (NewUser.image data) |} in
  let w' := with_users (users_rows (db w) ++ [row]) (after_createId w) in
  (id ∉ User.id <$> users_rows (db w) →
   Adapter.createUser data w = (Returns (val row), w')
   ∧ Adapter.getUser id w' = (Returns (val row), w')
   ∧ next_id w' = cuid w (S (cuid_calls w)))
  ∧ (id ∈ User.id <$> users_rows (db w) →
     Adapter.createUser data w
     = (Throws (ER_DUP_ENTRY "discord-clone_user"), after_createId w)).
Proof.
  intros id row w'. split.
  - intros Hfresh. split; [by apply createUser_fresh|]. split; [|done].
    rewrite getUser_run. cbn [w' with_users db users_rows].
    rewrite filter_app, (filter_none (Drizzle.eq User.id id)).
    + by rewrite filter_cons_True by done.
    + intros u Hu Hid. apply Hfresh. rewrite <- Hid.
      by apply list_elem_of_fmap_2.
  - intros Htaken. rewrite createUser_run. cbv zeta.
    by rewrite decide_True by done.
Qed.

Lemma createUser_then_getUser_witness :
  let row := User.Row "c0" (Some "Dave") "dave@example.org" None None in
  let w' := with_users (users_rows (db Sample.world) ++ [row])
              (after_createId Sample.world) in
  ((next_id Sample.world ∉ User.id <$> users_rows (db Sample.world))
   ∧ Adapter.createUser Scenario.dave Sample.world = (Returns (val row), w')
   ∧ Adapter.getUser "c0" w' = (Returns (val row), w')
   ∧ next_id w' = "c1")
  ∧ (next_id Scenario.colliding
     ∈ User.id <$> users_rows (db Scenario.colliding)
     ∧ Adapter.createUser Scenario.dave Scenario.colliding
       = (Throws (ER_DUP_ENTRY "discord-clone_user"),
          after_createId Scenario.colliding)).
Proof.
  intros row w'.
  assert (Hfresh : next_id Sample.world
                   ∉ User.id <$> users_rows (db Sample.world)) by by_decide.
  assert (Htaken : next_id Scenario.colliding
                   ∈ User.id <$> users_rows (db Scenario.colliding))
    by by_decide.
  split.
  - split; [exact Hfresh|].
    exact (proj1 (createUser_then_getUser Scenario.dave Sample.world) Hfresh).
  - split; [exact Htaken|].
    exact (proj2 (createUser_then_getUser Scenario.dave Scenario.colliding)
             Htaken).
Defined.

(** C3 as stated fails: in a world where [createId] hands out the id of a
    stored user, [createUser] returns no row but throws, no row is stored,
    and [getUser] on the id returns the user that was there, not the fields
    of the payload. *)
Lemma createUser_colliding_id_throws :
  let call := Adapter.createUser Scenario.dave Scenario.colliding in
  NewUser.id Scenario.dave = undefined
  ∧ next_id Scenario.colliding = "u1"
  ∧ call.1 = Throws (ER_DUP_ENTRY "discord-clone_user")
  ∧ (∀ r, call.1 ≠ Returns r)
  ∧ users_rows (db call.2) = users_rows (db Scenario.colliding)
  ∧ Adapter.getUser "u1" call.2 = (Returns (val Sample.alice), call.2)
  ∧ User.email Sample.alice ≠ NewUser.email Scenario.dave.
Proof.
  cbv zeta.
  assert (Hcall : Adapter.createUser Scenario.dave Scenario.colliding
                  = (Throws (ER_DUP_ENTRY "discord-clone_user"),
                     after_createId Scenario.colliding))
    by (vm_compute; reflexivity).
  rewrite Hcall. cbn [fst snd].
  split; [reflexivity|]. split; [reflexivity|]. split; [reflexivity|].
  split; [discriminate|]. split; [reflexivity|].
  split; [vm_compute; reflexivity|discriminate].
Qed.

(** C10. Whatever [id] property the argument of [createUser] carries, the
    id that is stored and returned is the one [createId] hands out. With a
    fresh generated id the row returned, and the one row added to the users,
    is made of the given fields and the generated id; with a generated id
    that is taken, nothing is stored. The call behaves as on the same fields
    without the property, and a supplied id other than the generated one is
    no more the id of a stored user after the call than before. *)
Theorem createUser_overwrites_id (data : NewUser.t) (supplied : js string)
    (w : World) :
  let id := next_id w in
  let row := {| User.id := id;
                User.name := Js.column (NewUser.name data);
                User.email := NewUser.email data;
                User.emailVerified := NewUser.emailVerified data;
                User.image := Js.column (NewUser.image data) |} in
  let call := Adapter.createUser (carrying_id supplied data) w in
  (id ∉ User.id <$> users_rows (db w) →
   call = (Returns (val row),
           with_users (users_rows (db w) ++ [row]) (after_createId w)))
  ∧ (id ∈ User.id <$> users_rows (db w) →
     call = (Throws (ER_DUP_ENTRY "discord-clone_user"), after_createId w))
  ∧ call = Adapter.createUser data w
  ∧ (∀ i, supplied = val i → i ≠ id →
          ¬ names_user i (db w) → ¬ names_user i (db call.2)).
Proof.
  intros id row call.
  assert (Hfresh : id ∉ User.id <$> users_rows (db w) →
                   call = (Returns (val row),
                           with_users (users_rows (db w) ++ [row])
                             (after_createId w))).
  { intros Hfresh. unfold call. by rewrite createUser_fresh by done. }
  assert (Htaken : id ∈ User.id <$> users_rows (db w) →
                   call = (Throws (ER_DUP_ENTRY "discord-clone_user"),
                           after_createId w)).
  { intros Htaken. unfold call. rewrite createUser_run. cbv zeta.
    by rewrite decide_True by done. }
  split; [exact Hfresh|]. split; [exact Htaken|]. split; [reflexivity|].
  intros i _ Hne Hnot.
  destruct (decide (id ∈ User.id <$> users_rows (db w))) as [Hin|Hout].
  - by rewrite (Htaken Hin).
  - rewrite (Hfresh Hout). unfold names_user.
    cbn [snd with_users db users_rows].
    rewrite fmap_app, elem_of_app. intros [Hold|Hnew]; [done|].
    apply list_elem_of_singleton in Hnew. done.
Qed.

Lemma createUser_overwrites_id_witness :
  let row := User.Row "c0" (Some "Carol") "carol@example.org" None None in
  let call := Adapter.createUser Scenario.carol Sample.world in
  ((next_id Sample.world ∉ User.id <$> users_rows (db Sample.world))
   ∧ call = (Returns (val row),
             with_users (users_rows (db Sample.world) ++ [row])
               (after_createId Sample.world)))
  ∧ (next_id Scenario.colliding
     ∈ User.id <$> users_rows (db Scenario.colliding)
     ∧ Adapter.createUser Scenario.carol Scenario.colliding
       = (Throws (ER_DUP_ENTRY "discord-clone_user"),
          after_createId Scenario.colliding))
  ∧ (NewUser.id Scenario.carol = val "evil"
     ∧ "evil" ≠ next_id Sample.world
     ∧ ¬ names_user "evil" (db Sample.world)
     ∧ ¬ names_user "evil" (db call.2)).
Proof.
  intros row call.
  assert (Hfresh : next_id Sample.world
                   ∉ User.id <$> users_rows (db Sample.world)) by by_decide.
  assert (Htaken : next_id Scenario.colliding
                   ∈ User.id <$> users_rows (db Scenario.colliding))
    by by_decide.
  assert (Hne : "evil" ≠ next_id Sample.world) by discriminate.
  assert (Hnot : ¬ names_user "evil" (db Sample.world)) by by_decide.
  pose proof (createUser_overwrites_id Scenario.carol (val "evil")
                Sample.world) as (G1 & _ & _ & G4).
  pose proof (createUser_overwrites_id Scenario.carol (val "evil")
                Scenario.colliding) as (_ & G2 & _).
  split; [|split].
  - split; [exact Hfresh|]. exact (G1 Hfresh).
  - split; [exact Htaken|]. exact (G2 Htaken).
  - split; [reflexivity|]. split; [exact Hne|]. split; [exact Hnot|].
    exact (G4 "evil" eq_refl Hne Hnot).
Defined.

(** C8, at an input where it fails. With a token for alice@example.org
    stored, creating a second token for the same identifier stores the new
    row and returns the old one. *)
Theorem createVerificationToken_returns_older_row :
  Sample.magic_link ∈ verificationTokens_rows (db Sample.world)
  ∧ Adapter.createVerificationToken Sample.second_link Sample.world
    = (Returns (val Sample.magic_link),
       with_verificationTokens [Sample.magic_link; Sample.second_link]
         Sample.world)
  ∧ Sample.magic_link ≠ Sample.second_link.
Proof.
  split; [cbn; left|]. split; [reflexivity|discriminate].
Qed.

(** * The primary keys are kept

    The theorems above assume of a table that its rows have pairwise
    different keys. The adapter's own statements keep it so. *)

Section keys_kept.
Context {A K : Type} (k : A → K).

Lemma keys_insert (l : list A) (r : A) :
  NoDup (k <$> l) → k r ∉ k <$> l → NoDup (k <$> l ++ [r]).
Proof.
  intros Hl Hr. rewrite fmap_app. apply NoDup_app.
  split; [done|]. split; [|apply NoDup_singleton].
  intros x Hx ->%list_elem_of_singleton. done.
Qed.

Lemma keys_filter (p : A → Prop) `{∀ a, Decision (p a)} (l : list A) :
  NoDup (k <$> l) → NoDup (k <$> filter p l).
Proof.
  intros Hl. eapply sublist_NoDup; [exact Hl|].
  apply fmap_sublist, sublist_filter.
Qed.

Lemma keys_update (p : A → Prop) `{∀ a, Decision (p a)} (f : A → A)
    (l : list A) :
  (∀ a, p a → k (f a) = k a) →
  k <$> ((λ a, if decide (p a) then f a else a) <$> l) = k <$> l.
Proof.
  intros Hf. induction l as [|x l IH]; [done|].
  rewrite !fmap_cons, IH. f_equal.
  destruct (decide (p x)); [by apply Hf|done].
Qed.

End keys_kept.

Lemma createUser_keeps_keys (data : NewUser.t) (w : World) :
  pk_ok dbSchema.users (db w) →
  pk_ok dbSchema.users (db (Adapter.createUser data w).2).
Proof.
  intros Hpk. rewrite createUser_run. cbv zeta.
  destruct (decide _) as [Hdup|Hfresh]; [done|].
  by apply (keys_insert User.id).
Qed.

Lemma createVerificationToken_keeps_keys (token : VerificationToken.t)
    (w : World) :
  pk_ok dbSchema.verificationTokens (db w) →
  pk_ok dbSchema.verificationTokens
    (db (Adapter.createVerificationToken token w).2).
Proof.
  intros Hpk. rewrite createVerificationToken_run.
  destruct (decide _) as [Hdup|Hfresh]; [done|].
  by apply (keys_insert (primaryKey dbSchema.verificationTokens)).
Qed.

Lemma useVerificationToken_keeps_keys (token : TokenRef.t) (w : World) :
  pk_ok dbSchema.verificationTokens (db w) →
  pk_ok dbSchema.verificationTokens
    (db (Adapter.useVerificationToken token w).2).
Proof.
  intros Hpk. rewrite useVerificationToken_run.
  by apply (keys_filter (primaryKey dbSchema.verificationTokens)).
Qed.

Lemma deleteSession_keeps_keys (sessionToken : string) (w : World) :
  pk_ok dbSchema.sessions (db w) →
  pk_ok dbSchema.sessions (db (Adapter.deleteSession sessionToken w).2).
Proof.
  intros Hpk. rewrite deleteSession_run.
  by apply (keys_filter Session.sessionToken).
Qed.

Lemma updateSession_keeps_keys (data : PartialSession.t) (w : World) :
  pk_ok dbSchema.sessions (db w) →
  pk_ok dbSchema.sessions (db (Adapter.updateSession data w).2).
Proof.
  intros Hpk. rewrite updateSession_run. cbv zeta.
  destruct (decide _) as [Hrejected|Haccepted]; [done|].
  unfold pk_ok. cbn [snd with_sessions db rows dbSchema.sessions sessions_rows
                     primaryKey].
  rewrite (keys_update Session.sessionToken); [done|].
  by intros a <-.
Qed.

(** * The rest of the adapter *)

Section more_runs.
Import dbSchema.

Lemma with_users_same (w : World) : with_users (users_rows (db w)) w = w.
Proof. by destruct w as [[] ? ?]. Qed.

Lemma with_accounts_same (w : World) :
  with_accounts (accounts_rows (db w)) w = w.
Proof. by destruct w as [[] ? ?]. Qed.

Lemma with_verificationTokens_same (w : World) :
  with_verificationTokens (verificationTokens_rows (db w)) w = w.
Proof. by destruct w as [[] ? ?]. Qed.

Lemma createSession_run (data : Session.t) (w : World) :
  Adapter.createSession data w
  = if decide (Session.sessionToken data
               ∈ Session.sessionToken <$> sessions_rows (db w))
    then (Throws (ER_DUP_ENTRY "discord-clone_session"), w)
    else if decide (names_user (Session.userId data) (db w))
    then (Returns
            (Js.first
               (filter (Drizzle.eq Session.sessionToken
                          (Session.sessionToken data))
                  (sessions_rows (db w) ++ [data]))),
          with_sessions (sessions_rows (db w) ++ [data]) w)
    else (Throws (ER_NO_REFERENCED_ROW_2 "discord-clone_session"), w).
Proof.
  unfold Adapter.createSession. run. unfold Drizzle.insert_values.
  cbn [rows sessions db tableName createTable primaryKey foreign_key
       parent_stored].
  destruct (decide _); [done|]. by destruct (decide _).
Qed.

Lemma linkAccount_run (rawAccount : Account.t) (w : World) :
  Adapter.linkAccount rawAccount w
  = if decide (primaryKey accounts rawAccount
               ∈ primaryKey accounts <$> accounts_rows (db w))
    then (Throws (ER_DUP_ENTRY "discord-clone_account"), w)
    else if decide (names_user (Account.userId rawAccount) (db w))
    then (Returns (), with_accounts (accounts_rows (db w) ++ [rawAccount]) w)
    else (Throws (ER_NO_REFERENCED_ROW_2 "discord-clone_account"), w).
Proof.
  unfold Adapter.linkAccount, Drizzle.insert_values.
  cbn [rows accounts db tableName createTable foreign_key parent_stored].
  destruct (decide _); [done|]. by destruct (decide _).
Qed.

Lemma unlinkAccount_run (account : AccountRef.t) (w : World) :
  Adapter.unlinkAccount account w
  = (Returns undefined,
     with_accounts (filter (λ a, ¬ account_matches account a)
                      (accounts_rows (db w))) w).
Proof.
  unfold Adapter.unlinkAccount. run.
  by rewrite (delete_where_accepted accounts).
Qed.

Lemma deleteUser_run (id : string) (w : World) :
  Adapter.deleteUser id w
  = if decide (Drizzle.restricts users (Drizzle.eq User.id id) (db w))
    then (Throws (ER_ROW_IS_REFERENCED_2 "discord-clone_user"), w)
    else (Returns (Js.nullish
                     (Js.first (filter (Drizzle.eq User.id id)
                                  (users_rows (db w))))
                     null),
          with_users (filter (λ u, ¬ Drizzle.eq User.id id u)
                        (users_rows (db w))) w).
Proof.
  unfold Adapter.deleteUser. run. unfold Drizzle.delete_where.
  by destruct (decide _).
Qed.

(** Whether a session, an account or a post belongs to the user [id]. *)
Lemma unreferenced_elem (id : string) (s : Store) :
  unreferenced id s
  ↔ id ∉ (Session.userId <$> sessions_rows s)
         ++ (Account.userId <$> accounts_rows s)
         ++ (Post.createdById <$> posts_rows s).
Proof.
  unfold unreferenced. rewrite !Forall_forall, !elem_of_app.
  setoid_rewrite list_elem_of_fmap. split.
  - intros (Hs & Ha & Hp) [(x & -> & Hx)|[(x & -> & Hx)|(x & -> & Hx)]].
    + by apply (Hs x).
    + by apply (Ha x).
    + by apply (Hp x).
  - intros Hno. repeat split; intros x Hx Heq; apply Hno; subst id.
    + left. by exists x.
    + right. left. by exists x.
    + right. right. by exists x.
Qed.

(** The engine refuses to delete a stored user that a row references, and
    only then. *)
Lemma deleteUser_restricted (id : string) (s : Store) :
  Drizzle.restricts users (Drizzle.eq User.id id) s
  ↔ names_user id s ∧ ¬ unreferenced id s.
Proof.
  unfold Drizzle.restricts, names_user. rewrite Exists_exists, unreferenced_elem.
  cbn [rows users referenced]. unfold Drizzle.eq.
  setoid_rewrite bool_decide_eq_true. rewrite list_elem_of_fmap. split.
  - intros (u & Hu & <- & Href). split; [by exists u|]. by intros [].
  - intros [(u & -> & Hu) Href]. exists u.
    repeat split; [done|]. by apply dec_stable.
Qed.

Lemma update_users_accepted (set : User.t → User.t) (p : User.t → Prop)
    `{∀ u, Decision (p u)} (w : World) :
  Drizzle.update_set_where users set p w
  = (Returns (),
     with_users ((λ u, if decide (p u) then set u else u)
                   <$> users_rows (db w)) w).
Proof. rewrite update_set_where_accepted; [done|]. intros u _ _. by left. Qed.

Lemma updateUser_run (data : PartialUser.t) (id : string) (w : World) :
  Js.truthy (PartialUser.id data) = Some id →
  let updated := (λ u, if decide (Drizzle.eq User.id id u)
                       then PartialUser.set data u else u)
                   <$> users_rows (db w) in
  Adapter.updateUser data w
  = (Returns (Js.first (filter (Drizzle.eq User.id id) updated)),
     with_users updated w).
Proof.
  intros Hid. unfold Adapter.updateUser. rewrite Hid. run.
  by rewrite update_users_accepted.
Qed.

(** A truthy [id] is the [id] property itself. *)
Lemma truthy_Some (x : js string) (id : string) :
  Js.truthy x = Some id ↔ x = val id ∧ id ≠ "".
Proof.
  destruct x as [| |s]; cbn; [split; [done|by intros [? _]]..|].
  destruct (decide (s = "")) as [->|Hs]; split.
  - done.
  - by intros [[= <-] Hne].
  - by intros [= ->].
  - by intros [[= ->] _].
Qed.

(** [set] leaves the id of a row selected by [data.id] as it is. *)
Lemma set_keeps_id (data : PartialUser.t) (id : string) (u : User.t) :
  Js.truthy (PartialUser.id data) = Some id →
  User.id u = id → User.id (PartialUser.set data u) = id.
Proof. intros [Hid _]%truthy_Some _. cbn. by rewrite Hid. Qed.

Lemma user_key (u a : User.t) :
  Drizzle.eq User.id (User.id u) a ↔ primaryKey users a = primaryKey users u.
Proof. reflexivity. Qed.

End more_runs.

(** X1. For a stored user and a session token that no stored session has,
    [createSession] stores the session after the others and returns it. *)
Theorem createSession_stores (data : Session.t) (w : World) :
  names_user (Session.userId data) (db w) →
  Session.sessionToken data ∉ Session.sessionToken <$> sessions_rows (db w) →
  Adapter.createSession data w
  = (Returns (val data), with_sessions (sessions_rows (db w) ++ [data]) w).
Proof.
  intros Huser Hfresh.
  rewrite createSession_run, decide_False, decide_True by done.
  rewrite filter_app,
    (filter_none (Drizzle.eq Session.sessionToken (Session.sessionToken data))).
  - by rewrite filter_cons_True by done.
  - intros s Hs Htok. apply Hfresh. rewrite <- Htok.
    by apply list_elem_of_fmap_2.
Qed.

Lemma createSession_stores_witness :
  names_user (Session.userId Scenario.phone_session) (db Sample.world)
  ∧ (Session.sessionToken Scenario.phone_session
   ∉ Session.sessionToken <$> sessions_rows (db Sample.world))
  ∧ Adapter.createSession Scenario.phone_session Sample.world
    = (Returns (val Scenario.phone_session),
       with_sessions (sessions_rows (db Sample.world)
                      ++ [Scenario.phone_session]) Sample.world).
Proof.
  assert (Hfresh : Session.sessionToken Scenario.phone_session
                   ∉ Session.sessionToken <$> sessions_rows (db Sample.world))
    by by_decide.
  assert (Huser : names_user (Session.userId Scenario.phone_session)
                    (db Sample.world)) by by_decide.
  split; [exact Huser|]. split; [exact Hfresh|].
  exact (createSession_stores Scenario.phone_session Sample.world Huser
           Hfresh).
Defined.

(** X2. For a stored user and a session token that a stored session already
    has, [createSession] is rejected by the engine: it throws the
    duplicate-entry error of the session table and the world is unchanged. *)
Theorem createSession_taken (data : Session.t) (w : World) :
  names_user (Session.userId data) (db w) →
  Session.sessionToken data ∈ Session.sessionToken <$> sessions_rows (db w) →
  Adapter.createSession data w
  = (Throws (ER_DUP_ENTRY "discord-clone_session"), w).
Proof. intros _ Htaken. by rewrite createSession_run, decide_True by done. Qed.

Lemma createSession_taken_witness :
  let again := Session.Row "s1" "u1" 7 in
  names_user (Session.userId again) (db Sample.world)
  ∧ Session.sessionToken again
    ∈ Session.sessionToken <$> sessions_rows (db Sample.world)
  ∧ Adapter.createSession again Sample.world
    = (Throws (ER_DUP_ENTRY "discord-clone_session"), Sample.world).
Proof.
  intros again.
  assert (Htaken : Session.sessionToken again
                   ∈ Session.sessionToken <$> sessions_rows (db Sample.world))
    by by_decide.
  assert (Huser : names_user (Session.userId again) (db Sample.world))
    by by_decide.
  split; [exact Huser|]. split; [exact Htaken|].
  exact (createSession_taken again Sample.world Huser Htaken).
Defined.

(** X3. Creating a session of a stored user under a free token and deleting
    it by that token gives the session back and restores the world. *)
Theorem createSession_then_deleteSession (data : Session.t) (w : World) :
  names_user (Session.userId data) (db w) →
  Session.sessionToken data ∉ Session.sessionToken <$> sessions_rows (db w) →
  Adapter.deleteSession (Session.sessionToken data)
    (Adapter.createSession data w).2
  = (Returns (val data), w).
Proof.
  intros Huser Hfresh.
  assert (Hno : ∀ s, s ∈ sessions_rows (db w) →
                     ¬ Drizzle.eq Session.sessionToken
                         (Session.sessionToken data) s).
  { intros s Hs Htok. apply Hfresh. rewrite <- Htok.
    by apply list_elem_of_fmap_2. }
  rewrite createSession_run, decide_False, decide_True by done.
  rewrite deleteSession_run. cbn [snd with_sessions db sessions_rows].
  rewrite !filter_app.
  rewrite (filter_none (Drizzle.eq Session.sessionToken
                          (Session.sessionToken data))) by exact Hno.
  rewrite (filter_not_none (Drizzle.eq Session.sessionToken
                              (Session.sessionToken data))) by exact Hno.
  rewrite filter_cons_True, filter_cons_False by (unfold Drizzle.eq; tauto).
  rewrite app_nil_r. cbn. by destruct w as [[] ? ?].
Qed.

Lemma createSession_then_deleteSession_witness :
  names_user (Session.userId Scenario.phone_session) (db Sample.world)
  ∧ (Session.sessionToken Scenario.phone_session
   ∉ Session.sessionToken <$> sessions_rows (db Sample.world))
  ∧ Adapter.deleteSession "s2"
      (Adapter.createSession Scenario.phone_session Sample.world).2
    = (Returns (val Scenario.phone_session), Sample.world).
Proof.
  assert (Hfresh : Session.sessionToken Scenario.phone_session
                   ∉ Session.sessionToken <$> sessions_rows (db Sample.world))
    by by_decide.
  assert (Huser : names_user (Session.userId Scenario.phone_session)
                    (db Sample.world)) by by_decide.
  split; [exact Huser|]. split; [exact Hfresh|].
  exact (createSession_then_deleteSession Scenario.phone_session Sample.world
           Huser Hfresh).
Defined.

(** X4. For a stored session whose [userId] is the id of a stored user
    (tokens and ids being primary keys), [getSessionAndUser] on the session's
    token returns the two rows together and changes nothing. *)
Theorem getSessionAndUser_found (s : Session.t) (u : User.t) (w : World) :
  pk_ok dbSchema.sessions (db w) → pk_ok dbSchema.users (db w) →
  s ∈ sessions_rows (db w) → u ∈ users_rows (db w) →
  User.id u = Session.userId s →
  Adapter.getSessionAndUser (Session.sessionToken s) w
  = (Returns (val {| SessionAndUser.session := s; SessionAndUser.user := u |}),
     w).
Proof.
  intros Hpks Hpku Hs Hu Hid. rewrite getSessionAndUser_run.
  destruct (keyed_split (primaryKey dbSchema.sessions)
              (Drizzle.eq Session.sessionToken (Session.sessionToken s))
              _ s Hpks Hs (session_key s))
    as (l1 & l2 & Hl & H1 & H2).
  cbn [rows dbSchema.sessions] in Hl.
  rewrite Hl, (filter_keyed
                 (Drizzle.eq Session.sessionToken (Session.sessionToken s)))
    by done.
  rewrite bind_singleton.
  destruct (keyed_split (primaryKey dbSchema.users)
              (λ u', User.id u' = Session.userId s) _ u Hpku Hu)
    as (k1 & k2 & Hk & K1 & K2).
  { intros u'. cbn. by rewrite Hid. }
  cbn [rows dbSchema.users] in Hk.
  rewrite Hk, (filter_keyed (λ u', User.id u' = Session.userId s)); done.
Qed.

Lemma getSessionAndUser_found_witness :
  pk_ok dbSchema.sessions (db Sample.world)
  ∧ pk_ok dbSchema.users (db Sample.world)
  ∧ Sample.alice_session ∈ sessions_rows (db Sample.world)
  ∧ Sample.alice ∈ users_rows (db Sample.world)
  ∧ Adapter.getSessionAndUser "s1" Sample.world
    = (Returns (val (SessionAndUser.Obj Sample.alice_session Sample.alice)),
       Sample.world).
Proof.
  assert (Hpks : pk_ok dbSchema.sessions (db Sample.world)) by by_decide.
  assert (Hpku : pk_ok dbSchema.users (db Sample.world)) by by_decide.
  assert (Hs : Sample.alice_session ∈ sessions_rows (db Sample.world)).
  { cbn. left. }
  assert (Hu : Sample.alice ∈ users_rows (db Sample.world)).
  { cbn. left. }
  split; [exact Hpks|]. split; [exact Hpku|].
  split; [exact Hs|]. split; [exact Hu|].
  exact (getSessionAndUser_found Sample.alice_session Sample.alice
           Sample.world Hpks Hpku Hs Hu eq_refl).
Defined.

(** A selection that some row satisfies yields a row that satisfies it. *)
Lemma first_filter_some {A} (p : A → Prop) `{∀ a, Decision (p a)}
    (l : list A) (u : A) :
  u ∈ l → p u → ∃ r, Js.first (filter p l) = val r ∧ r ∈ l ∧ p r.
Proof.
  intros Hu Hp.
  assert (Hmem : u ∈ filter p l) by (by apply list_elem_of_filter).
  destruct (filter p l) as [|r rest] eqn:Hsel.
  - by apply elem_of_nil in Hmem.
  - exists r. split; [done|].
    assert (Hr : r ∈ filter p l) by (rewrite Hsel; left).
    apply list_elem_of_filter in Hr. tauto.
Qed.

(** X5. When a stored user has the address, [getUserByEmail] returns a stored
    user that has it and changes nothing; when only one stored user has it,
    that is the user returned. (E-mail addresses are not unique in the
    schema, and the select has no order: of several users under one address
    any may be the one returned.) *)
Theorem getUserByEmail_found (email : string) (u : User.t) (w : World) :
  u ∈ users_rows (db w) → User.email u = email →
  ∃ found,
    Adapter.getUserByEmail email w = (Returns (val found), w)
    ∧ found ∈ users_rows (db w)
    ∧ User.email found = email
    ∧ ((∀ a, a ∈ users_rows (db w) → User.email a = email → a = u) →
       found = u).
Proof.
  intros Hu Hmail.
  destruct (first_filter_some (Drizzle.eq User.email email)
              (users_rows (db w)) u Hu Hmail) as (found & Hfirst & Hin & Hp).
  exists found. rewrite getUserByEmail_run, Hfirst.
  split; [done|]. split; [done|]. split; [done|].
  intros Honly. by apply Honly.
Qed.

Lemma getUserByEmail_found_witness :
  Scenario.bob ∈ users_rows (db Scenario.shared_mail)
  ∧ User.email Scenario.bob = "alice@example.org"
  ∧ ∃ found,
      Adapter.getUserByEmail "alice@example.org" Scenario.shared_mail
      = (Returns (val found), Scenario.shared_mail)
      ∧ found ∈ users_rows (db Scenario.shared_mail)
      ∧ User.email found = "alice@example.org"
      ∧ ((∀ a, a ∈ users_rows (db Scenario.shared_mail) →
               User.email a = "alice@example.org" → a = Scenario.bob) →
         found = Scenario.bob).
Proof.
  assert (Hu : Scenario.bob ∈ users_rows (db Scenario.shared_mail)).
  { cbn. right. left. }
  split; [exact Hu|]. split; [reflexivity|].
  exact (getUserByEmail_found "alice@example.org" Scenario.bob
           Scenario.shared_mail Hu eq_refl).
Defined.

(** X6. With a truthy [id] that a stored user has (ids being the primary
    key), [updateUser] writes the given properties into that row, leaves the
    other rows alone, and returns the row as updated; [getUser] on the id
    then returns the same row. *)
Theorem updateUser_updates (data : PartialUser.t) (id : string) (u : User.t)
    (w : World) :
  Js.truthy (PartialUser.id data) = Some id →
  pk_ok dbSchema.users (db w) →
  u ∈ users_rows (db w) → User.id u = id →
  ∃ l1 l2,
    users_rows (db w) = l1 ++ u :: l2
    ∧ Adapter.updateUser data w
      = (Returns (val (PartialUser.set data u)),
         with_users (l1 ++ PartialUser.set data u :: l2) w)
    ∧ Adapter.getUser id (with_users (l1 ++ PartialUser.set data u :: l2) w)
      = (Returns (val (PartialUser.set data u)),
         with_users (l1 ++ PartialUser.set data u :: l2) w).
Proof.
  intros Hid Hpk Hu Hkey.
  assert (Hp : ∀ a, Drizzle.eq User.id id a
                    ↔ primaryKey dbSchema.users a = primaryKey dbSchema.users u).
  { intros a. rewrite <- Hkey. apply user_key. }
  destruct (keyed_split (primaryKey dbSchema.users) (Drizzle.eq User.id id)
              _ u Hpk Hu Hp) as (l1 & l2 & Hl & H1 & H2).
  cbn [rows dbSchema.users] in Hl.
  assert (Hset : Drizzle.eq User.id id (PartialUser.set data u)).
  { by apply set_keeps_id. }
  exists l1, l2. split; [done|]. split.
  - rewrite (updateUser_run data id) by done. cbv zeta. rewrite Hl.
    rewrite (fmap_if_keyed (Drizzle.eq User.id id)) by done.
    by rewrite (filter_keyed (Drizzle.eq User.id id)) by done.
  - rewrite getUser_run. cbn [with_users db users_rows].
    by rewrite (filter_keyed (Drizzle.eq User.id id)) by done.
Qed.

Lemma updateUser_updates_witness :
  Js.truthy (PartialUser.id Scenario.rename) = Some "u1"
  ∧ pk_ok dbSchema.users (db Sample.world)
  ∧ Sample.alice ∈ users_rows (db Sample.world)
  ∧ ∃ l1 l2,
      users_rows (db Sample.world) = l1 ++ Sample.alice :: l2
      ∧ Adapter.updateUser Scenario.rename Sample.world
        = (Returns (val Scenario.renamed),
           with_users (l1 ++ Scenario.renamed :: l2) Sample.world)
      ∧ Adapter.getUser "u1"
          (with_users (l1 ++ Scenario.renamed :: l2) Sample.world)
        = (Returns (val Scenario.renamed),
           with_users (l1 ++ Scenario.renamed :: l2) Sample.world).
Proof.
  assert (Hpk : pk_ok dbSchema.users (db Sample.world)) by by_decide.
  assert (Hu : Sample.alice ∈ users_rows (db Sample.world)).
  { cbn. left. }
  split; [reflexivity|]. split; [exact Hpk|]. split; [exact Hu|].
  exact (updateUser_updates Scenario.rename "u1" Sample.alice Sample.world
           eq_refl Hpk Hu eq_refl).
Defined.

(** X7. With a truthy [id] that no stored user has, [updateUser] changes
    nothing and returns [undefined]: it neither throws nor returns [null]. *)
Theorem updateUser_unknown_id (data : PartialUser.t) (id : string) (w : World) :
  Js.truthy (PartialUser.id data) = Some id →
  (∀ u, u ∈ users_rows (db w) → User.id u ≠ id) →
  Adapter.updateUser data w = (Returns undefined, w).
Proof.
  intros Hid Hno. rewrite (updateUser_run data id) by done. cbv zeta.
  rewrite (fmap_if_none (Drizzle.eq User.id id)) by exact Hno.
  rewrite (filter_none (Drizzle.eq User.id id)) by exact Hno.
  by rewrite with_users_same.
Qed.

Lemma updateUser_unknown_id_witness :
  let data := PartialUser.Obj (val "u7") (val "Nobody") None undefined null in
  Js.truthy (PartialUser.id data) = Some "u7"
  ∧ (∀ u, u ∈ users_rows (db Sample.world) → User.id u ≠ "u7")
  ∧ Adapter.updateUser data Sample.world = (Returns undefined, Sample.world).
Proof.
  intros data.
  assert (Hno : ∀ u, u ∈ users_rows (db Sample.world) → User.id u ≠ "u7").
  { intros u Hu. each_row Hu. discriminate. }
  split; [reflexivity|]. split; [exact Hno|].
  exact (updateUser_unknown_id data "u7" Sample.world eq_refl Hno).
Defined.

(** X8. Whatever its argument, [updateUser] adds no user, removes none and
    changes no id: the ids of the stored users, in order, are the same after
    the call as before, and the other tables are untouched. *)
Theorem updateUser_keeps_ids (data : PartialUser.t) (w : World) :
  let w' := (Adapter.updateUser data w).2 in
  User.id <$> users_rows (db w') = User.id <$> users_rows (db w)
  ∧ accounts_rows (db w') = accounts_rows (db w)
  ∧ sessions_rows (db w') = sessions_rows (db w)
  ∧ verificationTokens_rows (db w') = verificationTokens_rows (db w).
Proof.
  cbv zeta. destruct (Js.truthy (PartialUser.id data)) as [id|] eqn:Hid.
  - rewrite (updateUser_run data id) by done. cbv zeta.
    cbn [snd with_users db users_rows accounts_rows sessions_rows
         verificationTokens_rows].
    split; [|done].
    apply (keys_update User.id). intros a Ha. rewrite Ha.
    by apply set_keeps_id.
  - unfold Adapter.updateUser. by rewrite Hid.
Qed.

Section more_lemmas.
Import dbSchema.

Lemma fmap_if_same {A} (p : A → Prop) `{∀ a, Decision (p a)} (f : A → A)
    (l : list A) :
  (∀ a, p a → f a = a) → (λ a, if decide (p a) then f a else a) <$> l = l.
Proof.
  intros Hf. induction l as [|x l IH]; [done|].
  rewrite fmap_cons, IH. f_equal.
  destruct (decide (p x)); [by apply Hf|done].
Qed.

Lemma fmap_if_twice {A} (p : A → Prop) `{∀ a, Decision (p a)} (f : A → A)
    (l : list A) :
  (∀ a, p a → p (f a) ∧ f (f a) = f a) →
  (λ a, if decide (p a) then f a else a)
    <$> ((λ a, if decide (p a) then f a else a) <$> l)
  = (λ a, if decide (p a) then f a else a) <$> l.
Proof.
  intros Hf. induction l as [|x l IH]; [done|].
  rewrite !fmap_cons, IH. f_equal.
  destruct (decide (p x)) as [Hx|Hx].
  - destruct (Hf x Hx) as [Hp Hff]. by rewrite decide_True.
  - by rewrite decide_False.
Qed.


Lemma only_id_set (id : string) (u : User.t) :
  User.id u = id → PartialUser.set (only_id id) u = u.
Proof. intros <-. by destruct u. Qed.

Lemma account_ref_matches (a b : Account.t) :
  account_matches (account_ref_of a) b
  ↔ primaryKey accounts b = primaryKey accounts a.
Proof.
  unfold account_matches, Drizzle.and, Drizzle.eq. cbn. split.
  - by intros [-> ->].
  - by intros [= -> ->].
Qed.

End more_lemmas.

(** X9. An update that carries a non-empty id and nothing else writes
    nothing: the world is unchanged, and what [updateUser] returns is what
    [getUser] finds, with [undefined] where [getUser] says [null]. *)
Theorem updateUser_only_id (id : string) (w : World) :
  id ≠ "" →
  ∃ r, Adapter.updateUser (only_id id) w = (Returns r, w)
       ∧ Adapter.getUser id w = (Returns (Js.nullish r null), w).
Proof.
  intros Hid. eexists. split; [|apply getUser_run].
  rewrite (updateUser_run (only_id id) id).
  - cbv zeta. rewrite (fmap_if_same (Drizzle.eq User.id id)).
    + by rewrite with_users_same.
    + intros a Ha. by apply only_id_set.
  - apply truthy_Some. done.
Qed.

Lemma updateUser_only_id_witness :
  "u1" ≠ ""
  ∧ ∃ r, Adapter.updateUser (only_id "u1") Sample.world
         = (Returns r, Sample.world)
         ∧ Adapter.getUser "u1" Sample.world
           = (Returns (Js.nullish r null), Sample.world).
Proof.
  assert (Hid : "u1" ≠ "") by discriminate.
  split; [exact Hid|].
  exact (updateUser_only_id "u1" Sample.world Hid).
Defined.

(** X10. [updateSession] is idempotent: a second call with the same argument
    returns what the first returned and leaves the world the first left. *)
Theorem updateSession_twice (data : PartialSession.t) (w : World) :
  Adapter.updateSession data (Adapter.updateSession data w).2
  = Adapter.updateSession data w.
Proof.
  set (p := Drizzle.eq Session.sessionToken (PartialSession.sessionToken data)).
  rewrite (updateSession_run data w). cbv zeta. fold p.
  destruct (decide _) as [Hrejected|Haccepted]; cbn [snd].
  - rewrite updateSession_run. cbv zeta. by rewrite decide_True.
  - rewrite updateSession_run. cbv zeta. fold p.
    cbn [with_sessions db sessions_rows]. rewrite decide_False.
    + rewrite (fmap_if_twice p); [reflexivity|].
      intros a _. split; [reflexivity|].
      unfold PartialSession.set.
      by destruct (PartialSession.userId data), (PartialSession.expires data).
    + intros (r & userId & Hr & Htok & Hdata & Hne & _)%session_dangles.
      cbn [sessions_rows] in Hr.
      apply list_elem_of_fmap in Hr as (r0 & -> & Hr0).
      destruct (decide (p r0)) as [Hp|Hp]; [|done].
      apply Hne. unfold PartialSession.set. cbn. by rewrite Hdata.
Qed.

(** X11. Linking an account of a stored user (ids being the primary key)
    under a free (provider, providerAccountId) pair stores the account and
    returns nothing; [getUserByAccount] on that pair then returns that
    user. *)
Theorem linkAccount_then_getUserByAccount (rawAccount : Account.t)
    (u : User.t) (w : World) :
  pk_ok dbSchema.users (db w) → u ∈ users_rows (db w) →
  User.id u = Account.userId rawAccount →
  primaryKey dbSchema.accounts rawAccount
    ∉ primaryKey dbSchema.accounts <$> accounts_rows (db w) →
  let w' := with_accounts (accounts_rows (db w) ++ [rawAccount]) w in
  Adapter.linkAccount rawAccount w = (Returns (), w')
  ∧ Adapter.getUserByAccount (account_ref_of rawAccount) w'
    = (Returns (val u), w').
Proof.
  intros Hpk Hu Hid Hfree w'.
  assert (Hno : ∀ a, a ∈ accounts_rows (db w) →
                     ¬ account_matches (account_ref_of rawAccount) a).
  { intros a Ha Hm%account_ref_matches. apply Hfree. rewrite <- Hm.
    by apply list_elem_of_fmap_2. }
  assert (Hsel : filter (account_matches (account_ref_of rawAccount))
                   (accounts_rows (db w')) = [rawAccount]).
  { cbn [w' with_accounts db accounts_rows].
    rewrite filter_app,
      (filter_none (account_matches (account_ref_of rawAccount)))
      by exact Hno.
    rewrite filter_cons_True; [done|]. by apply account_ref_matches. }
  split.
  - rewrite linkAccount_run, decide_False, decide_True; [done| |done].
    unfold names_user. rewrite <- Hid. by apply list_elem_of_fmap_2.
  - rewrite getUserByAccount_run, Hsel, bind_singleton.
    unfold left_rows.
    destruct (keyed_split (primaryKey dbSchema.users)
                (λ u', Account.userId rawAccount = User.id u') _ u Hpk Hu)
      as (k1 & k2 & Hk & K1 & K2).
    { intros u'. cbn. rewrite <- Hid. split; congruence. }
    cbn [rows dbSchema.users] in Hk.
    cbn [w' with_accounts db users_rows].
    rewrite Hk, (filter_keyed
                   (λ u', Account.userId rawAccount = User.id u')); done.
Qed.

Lemma linkAccount_then_getUserByAccount_witness :
  let w' := with_accounts (accounts_rows (db Sample.world)
                           ++ [Scenario.alice_gitlab]) Sample.world in
  pk_ok dbSchema.users (db Sample.world)
  ∧ Sample.alice ∈ users_rows (db Sample.world)
  ∧ (primaryKey dbSchema.accounts Scenario.alice_gitlab
     ∉ primaryKey dbSchema.accounts <$> accounts_rows (db Sample.world))
  ∧ Adapter.linkAccount Scenario.alice_gitlab Sample.world = (Returns (), w')
  ∧ Adapter.getUserByAccount (AccountRef.Obj "gitlab" "77") w'
    = (Returns (val Sample.alice), w').
Proof.
  intros w'.
  assert (Hfree : primaryKey dbSchema.accounts Scenario.alice_gitlab
                  ∉ primaryKey dbSchema.accounts
                      <$> accounts_rows (db Sample.world)) by by_decide.
  assert (Hpk : pk_ok dbSchema.users (db Sample.world)) by by_decide.
  assert (Hu : Sample.alice ∈ users_rows (db Sample.world)).
  { cbn. left. }
  split; [exact Hpk|]. split; [exact Hu|]. split; [exact Hfree|].
  exact (linkAccount_then_getUserByAccount Scenario.alice_gitlab Sample.alice
           Sample.world Hpk Hu eq_refl Hfree).
Defined.

(** X12. Linking an account of a stored user under a (provider,
    providerAccountId) pair that a stored account already has is rejected:
    [linkAccount] throws the duplicate-entry error of the account table and
    the world is unchanged. *)
Theorem linkAccount_taken (rawAccount : Account.t) (w : World) :
  names_user (Account.userId rawAccount) (db w) →
  primaryKey dbSchema.accounts rawAccount
    ∈ primaryKey dbSchema.accounts <$> accounts_rows (db w) →
  Adapter.linkAccount rawAccount w
  = (Throws (ER_DUP_ENTRY "discord-clone_account"), w).
Proof. intros _ Htaken. by rewrite linkAccount_run, decide_True by done. Qed.

Lemma linkAccount_taken_witness :
  names_user (Account.userId Sample.alice_github) (db Sample.world)
  ∧ primaryKey dbSchema.accounts Sample.alice_github
    ∈ primaryKey dbSchema.accounts <$> accounts_rows (db Sample.world)
  ∧ Adapter.linkAccount Sample.alice_github Sample.world
    = (Throws (ER_DUP_ENTRY "discord-clone_account"), Sample.world).
Proof.
  assert (Htaken : primaryKey dbSchema.accounts Sample.alice_github
                   ∈ primaryKey dbSchema.accounts
                       <$> accounts_rows (db Sample.world)) by by_decide.
  assert (Huser : names_user (Account.userId Sample.alice_github)
                    (db Sample.world)) by by_decide.
  split; [exact Huser|]. split; [exact Htaken|].
  exact (linkAccount_taken Sample.alice_github Sample.world Huser Htaken).
Defined.


(** X14. [deleteUser] on an id that no stored user has returns [null] and
    changes nothing. On the id of a stored user that no session, no account
    and no post references (ids being the primary key) it returns that row,
    and the user table loses that row and no other. On the id of a stored
    user that some session, account or post references, the engine rejects
    the delete: [deleteUser] throws and changes nothing. *)
Theorem deleteUser_cases (id : string) (w : World) :
  ((∀ u, u ∈ users_rows (db w) → User.id u ≠ id) →
   Adapter.deleteUser id w = (Returns null, w))
  ∧ (∀ u, pk_ok dbSchema.users (db w) → unreferenced id (db w) →
          u ∈ users_rows (db w) → User.id u = id →
          ∃ l1 l2,
            users_rows (db w) = l1 ++ u :: l2
            ∧ Adapter.deleteUser id w
              = (Returns (val u), with_users (l1 ++ l2) w))
  ∧ (names_user id (db w) → ¬ unreferenced id (db w) →
     Adapter.deleteUser id w
     = (Throws (ER_ROW_IS_REFERENCED_2 "discord-clone_user"), w)).
Proof.
  split; [|split].
  - intros Hno. rewrite deleteUser_run, decide_False.
    + rewrite (filter_none (Drizzle.eq User.id id)) by exact Hno.
      rewrite (filter_not_none (Drizzle.eq User.id id)) by exact Hno.
      by rewrite with_users_same.
    + intros [(u & -> & Hu)%list_elem_of_fmap _]%deleteUser_restricted.
      by apply (Hno u Hu).
  - intros u Hpk Hfree Hu <-.
    destruct (keyed_split (primaryKey dbSchema.users)
                (Drizzle.eq User.id (User.id u)) _ u Hpk Hu (user_key u))
      as (l1 & l2 & Hl & H1 & H2).
    exists l1, l2. cbn [rows dbSchema.users] in Hl. split; [done|].
    rewrite deleteUser_run, decide_False.
    + rewrite Hl.
      rewrite (filter_keyed (Drizzle.eq User.id (User.id u))) by done.
      by rewrite (filter_not_keyed (Drizzle.eq User.id (User.id u))) by done.
    + by intros [_ Href]%deleteUser_restricted.
  - intros Hstored Href. rewrite deleteUser_run, decide_True; [done|].
    by apply deleteUser_restricted.
Qed.

Lemma deleteUser_cases_witness :
  ((∀ u, u ∈ users_rows (db Scenario.shared_mail) → User.id u ≠ "u7")
   ∧ Adapter.deleteUser "u7" Scenario.shared_mail
     = (Returns null, Scenario.shared_mail))
  ∧ (pk_ok dbSchema.users (db Scenario.shared_mail)
     ∧ unreferenced "u2" (db Scenario.shared_mail)
     ∧ Scenario.bob ∈ users_rows (db Scenario.shared_mail)
     ∧ ∃ l1 l2,
         users_rows (db Scenario.shared_mail) = l1 ++ Scenario.bob :: l2
         ∧ Adapter.deleteUser "u2" Scenario.shared_mail
           = (Returns (val Scenario.bob),
              with_users (l1 ++ l2) Scenario.shared_mail))
  ∧ (names_user "u2" (db Scenario.blog)
     ∧ ¬ unreferenced "u2" (db Scenario.blog)
     ∧ Adapter.deleteUser "u2" Scenario.blog
       = (Throws (ER_ROW_IS_REFERENCED_2 "discord-clone_user"),
          Scenario.blog)).
Proof.
  assert (Hno : ∀ u, u ∈ users_rows (db Scenario.shared_mail) →
                     User.id u ≠ "u7").
  { intros u Hu. each_row Hu; discriminate. }
  assert (Hpk : pk_ok dbSchema.users (db Scenario.shared_mail)) by by_decide.
  assert (Hfree : unreferenced "u2" (db Scenario.shared_mail)) by by_decide.
  assert (Hin : Scenario.bob ∈ users_rows (db Scenario.shared_mail)).
  { cbn. right. left. }
  assert (Hstored : names_user "u2" (db Scenario.blog)) by by_decide.
  assert (Href : ¬ unreferenced "u2" (db Scenario.blog)) by by_decide.
  split; [|split].
  - split; [exact Hno|].
    exact (proj1 (deleteUser_cases "u7" Scenario.shared_mail) Hno).
  - split; [exact Hpk|]. split; [exact Hfree|]. split; [exact Hin|].
    exact (proj1 (proj2 (deleteUser_cases "u2" Scenario.shared_mail))
             Scenario.bob Hpk Hfree Hin eq_refl).
  - split; [exact Hstored|]. split; [exact Href|].
    exact (proj2 (proj2 (deleteUser_cases "u2" Scenario.blog)) Hstored Href).
Defined.

(** X15. After [deleteUser] on the id of a user that no session, no account
    and no post references, [getUser] on that id returns [null] and a second
    [deleteUser] returns [null] and changes nothing more; the sessions, the
    accounts, the verification tokens and the posts are as they were. *)
Theorem deleteUser_then_gone (id : string) (w : World) :
  unreferenced id (db w) →
  let w' := (Adapter.deleteUser id w).2 in
  Adapter.getUser id w' = (Returns null, w')
  ∧ Adapter.deleteUser id w' = (Returns null, w')
  ∧ accounts_rows (db w') = accounts_rows (db w)
  ∧ sessions_rows (db w') = sessions_rows (db w)
  ∧ verificationTokens_rows (db w') = verificationTokens_rows (db w)
  ∧ posts_rows (db w') = posts_rows (db w).
Proof.
  intros Hfree w'.
  assert (Hw' : w' = with_users (filter (λ u, ¬ Drizzle.eq User.id id u)
                                   (users_rows (db w))) w).
  { unfold w'. rewrite deleteUser_run, decide_False; [done|].
    by intros [_ Href]%deleteUser_restricted. }
  assert (Hno : ∀ u, u ∈ users_rows (db w') → User.id u ≠ id).
  { rewrite Hw'. intros u [Hn _]%list_elem_of_filter. exact Hn. }
  split; [|split].
  - rewrite getUser_run.
    by rewrite (filter_none (Drizzle.eq User.id id)) by exact Hno.
  - rewrite deleteUser_run, decide_False.
    + rewrite (filter_none (Drizzle.eq User.id id)) by exact Hno.
      rewrite (filter_not_none (Drizzle.eq User.id id)) by exact Hno.
      by rewrite with_users_same.
    + intros [(u & -> & Hu)%list_elem_of_fmap _]%deleteUser_restricted.
      by apply (Hno u Hu).
  - by rewrite Hw'.
Qed.

Lemma deleteUser_then_gone_witness :
  let w' := (Adapter.deleteUser "u2" Scenario.shared_mail).2 in
  unreferenced "u2" (db Scenario.shared_mail)
  ∧ Adapter.getUser "u2" w' = (Returns null, w')
  ∧ Adapter.deleteUser "u2" w' = (Returns null, w')
  ∧ accounts_rows (db w') = accounts_rows (db Scenario.shared_mail)
  ∧ sessions_rows (db w') = sessions_rows (db Scenario.shared_mail)
  ∧ verificationTokens_rows (db w')
    = verificationTokens_rows (db Scenario.shared_mail)
  ∧ posts_rows (db w') = posts_rows (db Scenario.shared_mail).
Proof.
  intros w'.
  assert (Hfree : unreferenced "u2" (db Scenario.shared_mail)) by by_decide.
  split; [exact Hfree|].
  exact (deleteUser_then_gone "u2" Scenario.shared_mail Hfree).
Defined.

(** X16. A verification token created under a free (identifier, token) pair
    is consumed by [useVerificationToken] on that pair: the call returns the
    token as created and the world is back to what it was before the
    creation, also when other tokens of the same identifier are stored. *)
Theorem createVerificationToken_then_use (token : VerificationToken.t)
    (w : World) :
  primaryKey dbSchema.verificationTokens token
    ∉ primaryKey dbSchema.verificationTokens
        <$> verificationTokens_rows (db w) →
  Adapter.useVerificationToken (ref_of token)
    (Adapter.createVerificationToken token w).2
  = (Returns (val token), w).
Proof.
  intros Hfree.
  assert (Hno : ∀ r, r ∈ verificationTokens_rows (db w) →
                     ¬ token_matches (ref_of token) r).
  { intros r Hr Hm%token_matches_key. apply Hfree. rewrite <- Hm.
    by apply list_elem_of_fmap_2. }
  assert (Hself : token_matches (ref_of token) token).
  { by apply token_matches_key. }
  rewrite createVerificationToken_run, decide_False by done.
  rewrite useVerificationToken_run.
  cbn [snd with_verificationTokens db verificationTokens_rows].
  rewrite !filter_app.
  rewrite (filter_none (token_matches (ref_of token))) by exact Hno.
  rewrite (filter_not_none (token_matches (ref_of token))) by exact Hno.
  rewrite filter_cons_True, filter_cons_False by tauto.
  rewrite app_nil_r. cbn. by destruct w as [[] ? ?].
Qed.

Lemma createVerificationToken_then_use_witness :
  (primaryKey dbSchema.verificationTokens Sample.second_link
   ∉ primaryKey dbSchema.verificationTokens
       <$> verificationTokens_rows (db Sample.world))
  ∧ Adapter.useVerificationToken (TokenRef.Obj "alice@example.org" "t2")
      (Adapter.createVerificationToken Sample.second_link Sample.world).2
    = (Returns (val Sample.second_link), Sample.world).
Proof.
  assert (Hfree : primaryKey dbSchema.verificationTokens Sample.second_link
                  ∉ primaryKey dbSchema.verificationTokens
                      <$> verificationTokens_rows (db Sample.world))
    by by_decide.
  split; [exact Hfree|].
  exact (createVerificationToken_then_use Sample.second_link Sample.world
           Hfree).
Defined.

(** X17. Creating a verification token under an (identifier, token) pair
    that a stored token already has is rejected: [createVerificationToken]
    throws the duplicate-entry error of the table and the world is
    unchanged. *)
Theorem createVerificationToken_taken (token : VerificationToken.t)
    (w : World) :
  primaryKey dbSchema.verificationTokens token
    ∈ primaryKey dbSchema.verificationTokens
        <$> verificationTokens_rows (db w) →
  Adapter.createVerificationToken token w
  = (Throws (ER_DUP_ENTRY "discord-clone_verificationToken"), w).
Proof.
  intros Htaken. by rewrite createVerificationToken_run, decide_True by done.
Qed.

Lemma createVerificationToken_taken_witness :
  let again := VerificationToken.Row "alice@example.org" "t1" 9000 in
  primaryKey dbSchema.verificationTokens again
    ∈ primaryKey dbSchema.verificationTokens
        <$> verificationTokens_rows (db Sample.world)
  ∧ Adapter.createVerificationToken again Sample.world
    = (Throws (ER_DUP_ENTRY "discord-clone_verificationToken"), Sample.world).
Proof.
  intros again.
  assert (Htaken : primaryKey dbSchema.verificationTokens again
                   ∈ primaryKey dbSchema.verificationTokens
                       <$> verificationTokens_rows (db Sample.world))
    by by_decide.
  split; [exact Htaken|].
  exact (createVerificationToken_taken again Sample.world Htaken).
Defined.

(** X18. Deleting a session twice: whatever the first [deleteSession]
    returned, the second call on the same token returns [null] and changes
    nothing more. *)
Theorem deleteSession_twice (sessionToken : string) (w : World) :
  let w' := (Adapter.deleteSession sessionToken w).2 in
  Adapter.deleteSession sessionToken w' = (Returns null, w').
Proof.
  intros w'.
  assert (Hno : ∀ s, s ∈ sessions_rows (db w') →
                     ¬ Drizzle.eq Session.sessionToken sessionToken s).
  { unfold w'. rewrite deleteSession_run.
    intros s [Hn _]%list_elem_of_filter. exact Hn. }
  rewrite deleteSession_run.
  rewrite (filter_none (Drizzle.eq Session.sessionToken sessionToken))
    by exact Hno.
  rewrite (filter_not_none (Drizzle.eq Session.sessionToken sessionToken))
    by exact Hno.
  by rewrite with_sessions_same.
Qed.

(** * Sequences of calls *)

Section invariant.
Import dbSchema.

Lemma store_ok_intro (s : Store) :
  NoDup (User.id <$> users_rows s) →
  NoDup (primaryKey accounts <$> accounts_rows s) →
  NoDup (Session.sessionToken <$> sessions_rows s) →
  NoDup (primaryKey verificationTokens <$> verificationTokens_rows s) →
  store_ok s.
Proof. intros. by repeat split. Qed.

Lemma after_keeps_keys (c : call) (w : World) :
  store_ok (db w) → store_ok (db (after c w)).
Proof.
  intros Hok. pose proof Hok as (Hu & Ha & Hs & Hv).
  unfold pk_ok in Hu, Ha, Hs, Hv.
  cbn [rows users accounts sessions verificationTokens] in Hu, Ha, Hs, Hv.
  destruct c; unfold after.
  - rewrite createUser_run. cbv zeta.
    destruct (decide _) as [Hdup|Hfresh]; [done|].
    apply store_ok_intro; [|done..]. by apply (keys_insert User.id).
  - by rewrite getUser_run.
  - by rewrite getUserByEmail_run.
  - rewrite createSession_run.
    destruct (decide _) as [Hdup|Hfresh]; [done|].
    destruct (decide _) as [Huser|Hmiss]; [|done].
    apply store_ok_intro; [done..| |done].
    by apply (keys_insert Session.sessionToken).
  - by rewrite getSessionAndUser_run.
  - destruct (Js.truthy (PartialUser.id data)) as [id|] eqn:Hid.
    + rewrite (updateUser_run data id) by done. cbv zeta.
      apply store_ok_intro; [|done..].
      cbn [snd with_users db users_rows].
      rewrite (keys_update User.id); [done|].
      intros a Ha'. rewrite Ha'. by apply set_keeps_id.
    + unfold Adapter.updateUser. by rewrite Hid.
  - rewrite updateSession_run. cbv zeta.
    destruct (decide _) as [Hrejected|Haccepted]; [done|].
    apply store_ok_intro; [done..| |done].
    cbn [snd with_sessions db sessions_rows].
    rewrite (keys_update Session.sessionToken); [done|].
    by intros a <-.
  - rewrite linkAccount_run.
    destruct (decide _) as [Hdup|Hfresh]; [done|].
    destruct (decide _) as [Huser|Hmiss]; [|done].
    apply store_ok_intro; [done| |done..].
    by apply (keys_insert (primaryKey accounts)).
  - by rewrite getUserByAccount_run.
  - rewrite deleteSession_run.
    apply store_ok_intro; [done..| |done].
    by apply (keys_filter Session.sessionToken).
  - rewrite createVerificationToken_run.
    destruct (decide _) as [Hdup|Hfresh]; [done|].
    apply store_ok_intro; [done..|].
    by apply (keys_insert (primaryKey verificationTokens)).
  - rewrite useVerificationToken_run.
    apply store_ok_intro; [done..|].
    by apply (keys_filter (primaryKey verificationTokens)).
  - rewrite deleteUser_run.
    destruct (decide _) as [Hrejected|Haccepted]; [done|].
    apply store_ok_intro; [|done..].
    by apply (keys_filter User.id).
  - rewrite unlinkAccount_run.
    apply store_ok_intro; [done| |done..].
    by apply (keys_filter (primaryKey accounts)).
Qed.

End invariant.

(** X19. The primary keys of the schema are an invariant of the adapter:
    from a store whose four tables have pairwise different keys, any sequence
    of calls of its fourteen methods, with any arguments and whether they
    return or throw, leaves a store of which that holds again. *)
Theorem adapter_keeps_keys (cs : list call) (w : World) :
  store_ok (db w) → store_ok (db (after_all cs w)).
Proof.
  revert w. induction cs as [|c cs IH]; intros w Hok; [done|].
  cbn. apply IH. by apply after_keeps_keys.
Qed.

Lemma adapter_keeps_keys_witness :
  store_ok (db Sample.world)
  ∧ store_ok (db (after_all Scenario.calls Sample.world)).
Proof.
  assert (Hok : store_ok (db Sample.world)) by by_decide.
  split; [exact Hok|].
  exact (adapter_keeps_keys Scenario.calls Sample.world Hok).
Defined.

(** X21. E-mail addresses are not unique in the schema, and [createUser] does
    not look at them: with a fresh id it stores a user under an address that
    a stored user already has. Both users are stored afterwards, and
    [getUserByEmail] on the address returns one of the stored users that
    have it. *)
Theorem createUser_same_email (data : NewUser.t) (u : User.t) (w : World) :
  next_id w ∉ User.id <$> users_rows (db w) →
  u ∈ users_rows (db w) →
  User.email u = NewUser.email data →
  ∃ w' found,
    Adapter.createUser data w
    = (Returns (val (new_user_row data (next_id w))), w')
    ∧ u ∈ users_rows (db w')
    ∧ new_user_row data (next_id w) ∈ users_rows (db w')
    ∧ u ≠ new_user_row data (next_id w)
    ∧ Adapter.getUserByEmail (NewUser.email data) w' = (Returns (val found), w')
    ∧ found ∈ users_rows (db w')
    ∧ User.email found = NewUser.email data.
Proof.
  intros Hfresh Hu Hmail.
  set (w' := with_users (users_rows (db w) ++ [new_user_row data (next_id w)])
               (after_createId w)).
  assert (Hin : u ∈ users_rows (db w')).
  { cbn. apply elem_of_app. by left. }
  destruct (first_filter_some (Drizzle.eq User.email (NewUser.email data))
              (users_rows (db w')) u Hin Hmail)
    as (found & Hfirst & Hfound & Hp).
  exists w', found. split; [by apply createUser_fresh|].
  split; [done|]. split; [cbn; apply elem_of_app; right; left|].
  split.
  { intros ->. apply Hfresh. by apply (list_elem_of_fmap_2 User.id) in Hu. }
  split; [|done]. by rewrite getUserByEmail_run, Hfirst.
Qed.

Lemma createUser_same_email_witness :
  let data := NewUser.Obj undefined (val "Alice II") "alice@example.org" None
                undefined in
  (next_id Sample.world ∉ User.id <$> users_rows (db Sample.world))
  ∧ Sample.alice ∈ users_rows (db Sample.world)
  ∧ User.email Sample.alice = NewUser.email data
  ∧ ∃ w' found,
      Adapter.createUser data Sample.world
      = (Returns (val (User.Row "c0" (Some "Alice II") "alice@example.org"
                         None None)), w')
      ∧ Sample.alice ∈ users_rows (db w')
      ∧ User.Row "c0" (Some "Alice II") "alice@example.org" None None
        ∈ users_rows (db w')
      ∧ Sample.alice
        ≠ User.Row "c0" (Some "Alice II") "alice@example.org" None None
      ∧ Adapter.getUserByEmail "alice@example.org" w'
        = (Returns (val found), w')
      ∧ found ∈ users_rows (db w')
      ∧ User.email found = "alice@example.org".
Proof.
  intros data.
  assert (Hfresh : next_id Sample.world
                   ∉ User.id <$> users_rows (db Sample.world)) by by_decide.
  assert (Hu : Sample.alice ∈ users_rows (db Sample.world)).
  { cbn. left. }
  split; [exact Hfresh|]. split; [exact Hu|]. split; [reflexivity|].
  exact (createUser_same_email data Sample.alice Sample.world Hfresh Hu
           eq_refl).
Defined.

(** X22. [useVerificationToken] deletes nothing but the token it is given:
    every stored token that differs from it in the identifier or in the
    token is still stored after the call, and the users, accounts and
    sessions are untouched. *)
Theorem useVerificationToken_keeps_others (token : TokenRef.t)
    (r : VerificationToken.t) (w : World) :
  r ∈ verificationTokens_rows (db w) →
  VerificationToken.identifier r ≠ TokenRef.identifier token
  ∨ VerificationToken.token r ≠ TokenRef.token token →
  let w' := (Adapter.useVerificationToken token w).2 in
  r ∈ verificationTokens_rows (db w')
  ∧ users_rows (db w') = users_rows (db w)
  ∧ accounts_rows (db w') = accounts_rows (db w)
  ∧ sessions_rows (db w') = sessions_rows (db w).
Proof.
  intros Hr Hother w'. unfold w'. rewrite useVerificationToken_run.
  split; [|done].
  cbn [snd with_db db set_rows dbSchema.verificationTokens
       verificationTokens_rows].
  apply list_elem_of_filter. split; [|done].
  unfold token_matches, Drizzle.and, Drizzle.eq. tauto.
Qed.

Lemma useVerificationToken_keeps_others_witness :
  let w := with_verificationTokens [Sample.magic_link; Sample.second_link]
             Sample.world in
  let w' := (Adapter.useVerificationToken (ref_of Sample.magic_link) w).2 in
  Sample.second_link ∈ verificationTokens_rows (db w)
  ∧ (VerificationToken.identifier Sample.second_link ≠ "alice@example.org"
     ∨ VerificationToken.token Sample.second_link ≠ "t1")
  ∧ Sample.second_link ∈ verificationTokens_rows (db w')
  ∧ users_rows (db w') = users_rows (db w)
  ∧ accounts_rows (db w') = accounts_rows (db w)
  ∧ sessions_rows (db w') = sessions_rows (db w).
Proof.
  intros w w'.
  assert (Hin : Sample.second_link ∈ verificationTokens_rows (db w)).
  { cbn. right. left. }
  assert (Hother : VerificationToken.identifier Sample.second_link
                   ≠ "alice@example.org"
                   ∨ VerificationToken.token Sample.second_link ≠ "t1").
  { right. discriminate. }
  split; [exact Hin|]. split; [exact Hother|].
  exact (useVerificationToken_keeps_others (ref_of Sample.magic_link)
           Sample.second_link w Hin Hother).
Defined.

(** X20. A session of a user that is not stored is not created: under a free
    token, [createSession] throws the foreign-key error of the session table
    and the world is unchanged. *)
Theorem createSession_unknown_user (data : Session.t) (w : World) :
  Session.sessionToken data ∉ Session.sessionToken <$> sessions_rows (db w) →
  ¬ names_user (Session.userId data) (db w) →
  Adapter.createSession data w
  = (Throws (ER_NO_REFERENCED_ROW_2 "discord-clone_session"), w).
Proof.
  intros Hfree Hmiss. by rewrite createSession_run, !decide_False by done.
Qed.

Lemma createSession_unknown_user_witness :
  (Session.sessionToken Scenario.ghost_session
   ∉ Session.sessionToken <$> sessions_rows (db Sample.world))
  ∧ ¬ names_user (Session.userId Scenario.ghost_session) (db Sample.world)
  ∧ Adapter.createSession Scenario.ghost_session Sample.world
    = (Throws (ER_NO_REFERENCED_ROW_2 "discord-clone_session"), Sample.world).
Proof.
  assert (Hfree : Session.sessionToken Scenario.ghost_session
                  ∉ Session.sessionToken <$> sessions_rows (db Sample.world))
    by by_decide.
  assert (Hmiss : ¬ names_user (Session.userId Scenario.ghost_session)
                      (db Sample.world)) by by_decide.
  split; [exact Hfree|]. split; [exact Hmiss|].
  exact (createSession_unknown_user Scenario.ghost_session Sample.world
           Hfree Hmiss).
Defined.

(** X23. An account of a user that is not stored is not linked: under a free
    (provider, providerAccountId) pair, [linkAccount] throws the foreign-key
    error of the account table and the world is unchanged. *)
Theorem linkAccount_unknown_user (rawAccount : Account.t) (w : World) :
  primaryKey dbSchema.accounts rawAccount
    ∉ primaryKey dbSchema.accounts <$> accounts_rows (db w) →
  ¬ names_user (Account.userId rawAccount) (db w) →
  Adapter.linkAccount rawAccount w
  = (Throws (ER_NO_REFERENCED_ROW_2 "discord-clone_account"), w).
Proof.
  intros Hfree Hmiss. by rewrite linkAccount_run, !decide_False by done.
Qed.

Lemma linkAccount_unknown_user_witness :
  let w := with_accounts [Sample.alice_github] Sample.world in
  (primaryKey dbSchema.accounts Sample.orphan_github
   ∉ primaryKey dbSchema.accounts <$> accounts_rows (db w))
  ∧ ¬ names_user (Account.userId Sample.orphan_github) (db w)
  ∧ Adapter.linkAccount Sample.orphan_github w
    = (Throws (ER_NO_REFERENCED_ROW_2 "discord-clone_account"), w).
Proof.
  intros w.
  assert (Hfree : primaryKey dbSchema.accounts Sample.orphan_github
                  ∉ primaryKey dbSchema.accounts <$> accounts_rows (db w))
    by by_decide.
  assert (Hmiss : ¬ names_user (Account.userId Sample.orphan_github) (db w))
    by by_decide.
  split; [exact Hfree|]. split; [exact Hmiss|].
  exact (linkAccount_unknown_user Sample.orphan_github w Hfree Hmiss).
Defined.
